(** * TitleCardMaker: the Marvel title card, the genre card and the
      ImageMagick interface

    A shallow embedding of [modules/cards/MarvelTitleCard.py],
    [modules/GenreMaker.py] and [modules/ImageMagickInterface.py], followed
    by the properties of the card layout, the text-fit step and the render
    pipeline.

    Conventions of the embedding:
    - Python [int] is [Z]; a Python [float] is the rational [Q] it stands
      for. The division of the text-fit step, [max_width / text_width],
      rounds its quotient to binary64 as Python does ([truediv]). The other
      float operations, the halving in the compact offset and the products
      of a font size and the modifier, are kept as exact rationals: halving
      an [int] below 2^53 is exact in binary64 as well, and the products
      only reach the command through the float formatter, an interface of
      the embedding. [bool] is [bool] and enters arithmetic through
      [Z.b2z], as in Python.
    - [str] and [Path] are [string]; an f-string is the concatenation of its
      pieces, each hole rendered by the formatter Python would use.
    - [dict] is a [gmap] with string keys.
    - Methods that mutate [self] or talk to the outside world run in a small
      state-and-exception monad; every external interaction is recorded in
      an event log. [shlex.split] and [Popen] can raise, and what they raise
      propagates through [run] to the caller. *)

From Stdlib Require Import ZArith QArith Qabs Qpower Lia Lqa Ascii String DecimalString.
From Stdlib Require Import SpecFloat.
From stdpp Require Import base option list strings gmap.

Local Open Scope Z_scope.

(** ** Python values and formatting *)

(** The double quote and the backslash, by character code. *)
Definition dq : string := String "034"%char EmptyString.
Definition backslash : string := String "092"%char EmptyString.
Definition backtick : ascii := "096"%char.

(** [str(n)] for an [int]. *)
Definition str_int (n : Z) : string := NilZero.string_of_int (Z.to_int n).

(** [format(n, '+')] for an [int]: the sign is always printed. *)
Definition plus_int (n : Z) : string :=
  if n <? 0 then str_int n else "+" +:+ str_int n.

(** [' '.join(parts)]. *)
Fixpoint join (sep : string) (parts : list string) : string :=
  match parts with
  | [] => EmptyString
  | [p] => p
  | p :: rest => p +:+ sep +:+ join sep rest
  end.

(** [s.replace(old, new)] for a one-character [old]. *)
Fixpoint replace_char (old : ascii) (new : string) (s : string) : string :=
  match s with
  | EmptyString => EmptyString
  | String c rest =>
      if Ascii.eqb c old then new +:+ replace_char old new rest
      else String c (replace_char old new rest)
  end.

(** Python's rendering of a [float] inside an f-string is a builtin of the
    interpreter; the embedding takes it as an interface:
    [float_str x] is [f'{x}'], [float_plus x] is [f'{x:+}'] and
    [float_0f x] is [f'{x:.0f}']. *)
Class PyFloatFormat := {
  float_str : Q -> string;
  float_plus : Q -> string;
  float_0f : Q -> string
}.

(** Rounding to the nearest integer, ties to the even one, as
    [format(x, '.0f')] and the binary64 arithmetic do. *)
Definition round_half_even (q : Q) : Z :=
  let n := Qnum q in
  let d := Zpos (Qden q) in
  let f := n / d in
  let twice_rest := 2 * (n - f * d) in
  if twice_rest <? d then f
  else if d <? twice_rest then f + 1
  else if Z.even f then f else f + 1.

(** *** binary64 *)

(** The integer part of the binary logarithm of a positive rational. *)
Definition floor_log2 (x : Q) : Z :=
  let guess := Z.log2 (Qnum x) - Z.log2 (Zpos (Qden x)) in
  if Qle_bool (2 ^ guess) x then guess else guess - 1.

(** The exponent of the unit in the last place of the binary64 number
    nearest to [x]: 52 below the binary logarithm for a normal number,
    -1074 for a subnormal one. *)
Definition binary64_exponent (x : Q) : Z :=
  Z.max (floor_log2 (Qabs x) - 52) (-1074).

(** The magnitude of [x] rounded to a multiple of that unit. *)
Definition binary64_magnitude (x : Q) : Q :=
  (inject_Z (round_half_even (Qabs x / 2 ^ binary64_exponent x))
   * 2 ^ binary64_exponent x)%Q.

(** The binary64 number nearest to [x], ties to even; [None] when it would
    reach 2^1024, which binary64 cannot hold. *)
Definition round_binary64 (x : Q) : option Q :=
  if Qeq_bool x 0 then Some 0%Q
  else if Qle_bool (2 ^ 1024) (binary64_magnitude x) then None
  else Some (if Qle_bool 0 x then binary64_magnitude x
             else - binary64_magnitude x)%Q.

(** The value of a floating-point number of the Standard Library's
    specification of IEEE 754, to compare [round_binary64] with. *)
Definition spec_float_value (f : spec_float) : option Q :=
  match f with
  | S754_zero _ => Some 0%Q
  | S754_finite negative m e =>
      Some ((if negative then -1 else 1) * inject_Z (Zpos m) * 2 ^ e)%Q
  | _ => None
  end.

(** The quotient of two integers that binary64 holds exactly, as the
    Standard Library's IEEE 754 division computes it. *)
Definition reference_quotient (a b : Z) : option Q :=
  spec_float_value
    (SFdiv 53 1024 (binary_normalize 53 1024 a 0 false)
       (binary_normalize 53 1024 b 0 false)).

(** ** Effects *)

(** The exceptions the embedded code can meet. *)
Inductive exn :=
  | ZeroDivisionError
  | OverflowError
  | ValueError
  | OSError.

Inductive outcome (A : Type) :=
  | Returned (a : A)
  | Raised (e : exn).
Arguments Returned {A} a.
Arguments Raised {A} e.

(** [a / b] on two [int]s: true division. A zero divisor raises
    ZeroDivisionError; otherwise the result is the exact quotient rounded
    to binary64, and a quotient too large for a float raises
    OverflowError. *)
Definition truediv (a b : Z) : outcome Q :=
  if b =? 0 then Raised ZeroDivisionError
  else
    match round_binary64 (inject_Z a / inject_Z b) with
    | Some q => Returned q
    | None => Raised OverflowError
    end.

(** How [get_text_dimensions] combines the per-line measurements. *)
Inductive dim_mode := DimMax | DimSum.

Record Dimensions := { width : Z; height : Z }.

(** What a finished child process leaves behind. *)
Record completed := {
  stdout : string;
  stderr : string;
  returncode : Z
}.

Inductive event :=
  | EvMeasure (text_command : list string) (w h : dim_mode)
  | EvSetFontSizeModifier (q : Q)
  | EvPopen (argv : list string)
  | EvLogError (message : string)
  | EvUnlink (path : string).

(** The world outside the interpreter: the set of paths that exist and the
    log of interactions, latest last. *)
Record world := {
  fs : gset string;
  log : list event
}.

Definition M (S A : Type) : Type := S -> outcome A * S.

Definition ret {S A} (a : A) : M S A := fun s => (Returned a, s).

Definition bind {S A B} (m : M S A) (k : A -> M S B) : M S B :=
  fun s =>
    match m s with
    | (Returned a, s') => k a s'
    | (Raised e, s') => (Raised e, s')
    end.

Definition raise {S A} (e : exn) : M S A := fun s => (Raised e, s).

Declare Scope py_scope.
Delimit Scope py_scope with py.
Notation "x <- m ;; k" := (bind m (fun x => k))
  (at level 100, m at next level, right associativity) : py_scope.
Notation "m ;;; k" := (bind m (fun _ => k))
  (at level 100, right associativity) : py_scope.

(** Appending one event to the log. *)
Definition record_event (e : event) (w : world) : world :=
  {| fs := fs w; log := log w ++ [e] |}.

Definition emit (e : event) : M world unit :=
  fun w => (Returned tt, record_event e w).

(** Running a world action from a method whose state also holds [self]. *)
Definition lift {C A} (m : M world A) : M (C * world) A :=
  fun cw =>
    match m (snd cw) with
    | (r, w') => (r, (fst cw, w'))
    end.

(** Why [Popen] did not start a process: the program cannot be executed
    (OSError and its subclasses) or an argument is not acceptable
    (ValueError). Every command of the embedded callers starts with the
    name of a program, so the argument list is never empty. *)
Inductive popen_error :=
  | CannotExecute
  | InvalidArgument.

Definition exn_of_popen (e : popen_error) : exn :=
  match e with
  | CannotExecute => OSError
  | InvalidArgument => ValueError
  end.

(** The operating system, as far as the program uses it.
    [command_split] is [shlex.split]: it answers [None] where [shlex.split]
    raises ValueError (a quotation that is not closed, a backslash with
    nothing after it). [popen] is [Popen(argv, ...).communicate()] with its
    effect on the file system: either the reason why no process was
    started, or what the finished process left. [resolve] is
    [Path.resolve]. *)
Class OperatingSystem := {
  command_split : string -> option (list string);
  popen : list string -> gset string -> popen_error + completed * gset string;
  resolve : string -> string
}.

(** ** modules/ImageMagickInterface.py *)

Module ImageMagickInterface.

Record t := {
  container : option string;
  use_docker : bool;
  prefix : string
}.

(** [bool(container)]: [None] and the empty string are false. *)
Definition truthy (container : option string) : bool :=
  match container with
  | None => false
  | Some c => negb (String.eqb c EmptyString)
  end.

(** [__init__]; [use_magick_prefix] is the global preference it reads. *)
Definition init (container : option string) (use_magick_prefix : bool) : t :=
  {| container := container;
     use_docker := truthy container;
     prefix := if use_magick_prefix then "magick " else EmptyString |}.

(** [escape_chars]: escape the double quote, then the backtick. *)
Definition escape_chars (s : string) : string :=
  replace_char backtick (backslash +:+ String backtick EmptyString)
    (replace_char "034"%char (backslash +:+ dq) s).

(** [f'{self.container}']. *)
Definition str_container (c : option string) : string :=
  match c with
  | None => "None"
  | Some c => c
  end.

(** The command line [run] hands to [shlex.split]. *)
Definition command_line (self : t) (command : string) : string :=
  if use_docker self
  then "docker exec -t " +:+ str_container (container self) +:+ " "
         +:+ prefix self +:+ command
  else prefix self +:+ command.

(** [run]: split the command, execute it and return the captured
    [(stdout, stderr)]; neither the streams nor the return code are looked
    at. What [shlex.split] or [Popen] raise is not caught. *)
Definition run {os : OperatingSystem} (self : t) (command : string)
  : M world (string * string) :=
  fun w =>
    match command_split (command_line self command) with
    | None => (Raised ValueError, w)
    | Some argv =>
        match popen argv (fs w) with
        | inl e => (Raised (exn_of_popen e), w)
        | inr (finished, files) =>
            (Returned (stdout finished, stderr finished),
             {| fs := files; log := log w ++ [EvPopen argv] |})
        end
    end.

(** [image.unlink(missing_ok=True)]. *)
Definition unlink (image : string) : M world unit :=
  fun w =>
    (Returned tt, {| fs := fs w ∖ {[ image ]}; log := log w ++ [EvUnlink image] |}).

(** [delete_intermediate_images]: unlink each path in turn. *)
Fixpoint delete_intermediate_images (paths : list string) : M world unit :=
  match paths with
  | [] => ret tt
  | image :: rest => bind (unlink image) (fun _ => delete_intermediate_images rest)
  end.

End ImageMagickInterface.

(** ** modules/cards/MarvelTitleCard.py *)

(** [Path / name]. *)
Definition path_join (dir name : string) : string := dir +:+ "/" +:+ name.

(** The part of [BaseCardType] (and of the instance state it sets up) that
    the Marvel card inherits: canvas constants, the reference directory, the
    resize subcommands, the text measurement and the ImageMagick interface.
    The class itself is outside the files embedded here, so it is an
    interface. [measure_text] is what ImageMagick answers to a measurement
    query. *)
Class BaseCardType := {
  WIDTH : Z;
  HEIGHT : Z;
  TITLE_CARD_SIZE : string;
  BASE_REF_DIRECTORY : string;
  resize_and_style : bool -> bool -> list string;
  resize_output : list string;
  measure_text : list string -> dim_mode -> dim_mode -> Dimensions;
  image_magick : ImageMagickInterface.t
}.

Record Coordinate := { x : Q; y : Q }.

Record Rectangle := { start : Coordinate; end_ : Coordinate }.

(** The attributes of a [Font] that the card reads. The class is outside
    the files embedded here; the attribute types are those of the matching
    keyword arguments of the card's constructor. *)
Module Font.

Record t := {
  color : string;
  file : string;
  interline_spacing : Z;
  interword_spacing : Z;
  kerning : Q;
  size : Q;
  vertical_shift : Z
}.

End Font.

Module MarvelTitleCard.

Record t := {
  source_file : string;
  output_file : string;
  title_text : string;
  season_text : string;
  episode_text : string;
  hide_season_text : bool;
  hide_episode_text : bool;
  font_file : string;
  font_size : Q;
  font_color : string;
  font_interline_spacing : Z;
  font_interword_spacing : Z;
  font_kerning : Q;
  font_vertical_shift : Z;
  border_color : string;
  border_size : Z;
  episode_text_color : string;
  fit_text : bool;
  episode_text_position : string;
  hide_border : bool;
  text_box_color : string;
  text_box_height : Z;
  font_size_modifier : Q;
  blur : bool;
  grayscale : bool
}.

Definition set_font_size_modifier (q : Q) (self : t) : t :=
  {| source_file := source_file self;
     output_file := output_file self;
     title_text := title_text self;
     season_text := season_text self;
     episode_text := episode_text self;
     hide_season_text := hide_season_text self;
     hide_episode_text := hide_episode_text self;
     font_file := font_file self;
     font_size := font_size self;
     font_color := font_color self;
     font_interline_spacing := font_interline_spacing self;
     font_interword_spacing := font_interword_spacing self;
     font_kerning := font_kerning self;
     font_vertical_shift := font_vertical_shift self;
     border_color := border_color self;
     border_size := border_size self;
     episode_text_color := episode_text_color self;
     fit_text := fit_text self;
     episode_text_position := episode_text_position self;
     hide_border := hide_border self;
     text_box_color := text_box_color self;
     text_box_height := text_box_height self;
     font_size_modifier := q;
     blur := blur self;
     grayscale := grayscale self |}.

(** The values an extras dictionary holds. *)
Inductive pyvalue :=
  | PyNone
  | PyBool (b : bool)
  | PyInt (n : Z)
  | PyFloat (q : Q)
  | PyStr (s : string).

Definition TITLE_COLOR : string := "white".
Definition EPISODE_TEXT_COLOR : string := "#C9C9C9".
Definition DEFAULT_BORDER_SIZE : Z := 55.
Definition DEFAULT_BORDER_COLOR : string := "white".
Definition DEFAULT_TEXT_BOX_COLOR : string := "black".
Definition DEFAULT_TEXT_BOX_HEIGHT : Z := 200.

(** [modify_extras]: the dictionary is updated in place and nothing is
    returned; the embedding returns the updated dictionary. The second flag
    is accepted and not read. *)
Definition modify_extras (extras : gmap string pyvalue)
    (custom_font custom_season_titles : bool) : gmap string pyvalue :=
  if negb custom_font then
    let extras :=
      if bool_decide (is_Some (extras !! "episode_text_color"))
      then <["episode_text_color" := PyStr EPISODE_TEXT_COLOR]> extras
      else extras in
    if bool_decide (is_Some (extras !! "border_color"))
    then <["border_color" := PyStr "white"]> extras
    else extras
  else extras.

Section Card.
Context {fmt : PyFloatFormat} {os : OperatingSystem} {base : BaseCardType}.

Definition REF_DIRECTORY : string := path_join BASE_REF_DIRECTORY "marvel".
Definition EPISODE_TEXT_FONT : string := path_join REF_DIRECTORY "Qualion ExtraBold.ttf".
Definition TITLE_FONT : string := resolve (path_join REF_DIRECTORY "Qualion ExtraBold.ttf").

(** The keyword arguments of [__init__] that have a default, at their
    defaults. *)
Record kwargs := {
  kw_hide_season_text : bool;
  kw_hide_episode_text : bool;
  kw_font_color : string;
  kw_font_file : string;
  kw_font_interline_spacing : Z;
  kw_font_interword_spacing : Z;
  kw_font_kerning : Q;
  kw_font_size : Q;
  kw_font_vertical_shift : Z;
  kw_blur : bool;
  kw_grayscale : bool;
  kw_border_color : string;
  kw_border_size : Z;
  kw_episode_text_color : string;
  kw_episode_text_location : string;
  kw_fit_text : bool;
  kw_hide_border : bool;
  kw_text_box_color : string;
  kw_text_box_height : Z
}.

Definition defaults : kwargs :=
  {| kw_hide_season_text := false;
     kw_hide_episode_text := false;
     kw_font_color := TITLE_COLOR;
     kw_font_file := TITLE_FONT;
     kw_font_interline_spacing := 0;
     kw_font_interword_spacing := 0;
     kw_font_kerning := 1%Q;
     kw_font_size := 1%Q;
     kw_font_vertical_shift := 0;
     kw_blur := false;
     kw_grayscale := false;
     kw_border_color := DEFAULT_BORDER_COLOR;
     kw_border_size := DEFAULT_BORDER_SIZE;
     kw_episode_text_color := EPISODE_TEXT_COLOR;
     kw_episode_text_location := "fixed";
     kw_fit_text := true;
     kw_hide_border := false;
     kw_text_box_color := DEFAULT_TEXT_BOX_COLOR;
     kw_text_box_height := DEFAULT_TEXT_BOX_HEIGHT |}.

(** [__init__]: store the arguments, escaping the three texts, and start
    the font size modifier at 1.0. *)
Definition init (source card_file title season episode : string) (kw : kwargs) : t :=
  {| source_file := source;
     output_file := card_file;
     title_text := ImageMagickInterface.escape_chars title;
     season_text := ImageMagickInterface.escape_chars season;
     episode_text := ImageMagickInterface.escape_chars episode;
     hide_season_text := kw_hide_season_text kw;
     hide_episode_text := kw_hide_episode_text kw;
     font_file := kw_font_file kw;
     font_size := kw_font_size kw;
     font_color := kw_font_color kw;
     font_interline_spacing := kw_font_interline_spacing kw;
     font_interword_spacing := kw_font_interword_spacing kw;
     font_kerning := kw_font_kerning kw;
     font_vertical_shift := kw_font_vertical_shift kw;
     border_color := kw_border_color kw;
     border_size := kw_border_size kw;
     episode_text_color := kw_episode_text_color kw;
     fit_text := kw_fit_text kw;
     episode_text_position := kw_episode_text_location kw;
     hide_border := kw_hide_border kw;
     text_box_color := kw_text_box_color kw;
     text_box_height := kw_text_box_height kw;
     font_size_modifier := 1%Q;
     blur := kw_blur kw;
     grayscale := kw_grayscale kw |}.

(** [Coordinate.__str__], [Rectangle.__str__] and [Rectangle.draw]. *)
Definition Coordinate_str (c : Coordinate) : string :=
  float_0f (x c) +:+ "," +:+ float_0f (y c).

Definition Rectangle_str (r : Rectangle) : string :=
  "rectangle " +:+ Coordinate_str (start r) +:+ "," +:+ Coordinate_str (end_ r).

Definition draw (r : Rectangle) : string :=
  "-draw " +:+ dq +:+ Rectangle_str r +:+ dq.

(** A coordinate given by two [int]s. *)
Definition at_ (px py : Z) : Coordinate := {| x := inject_Z px; y := inject_Z py |}.

(** The local variables of [title_text_commands]. *)
Definition title_size (self : t) : Q :=
  (150 * font_size self * font_size_modifier self)%Q.
Definition title_kerning (self : t) : Q := (1 * font_kerning self)%Q.
Definition title_vertical_shift (self : t) : Z := 820 + font_vertical_shift self.

(** The annotate instruction of the title text. *)
Definition title_annotate (self : t) : string :=
  "-annotate +0+" +:+ str_int (title_vertical_shift self) +:+ " "
    +:+ dq +:+ title_text self +:+ dq.

(** [title_text_commands]. *)
Definition title_text_commands (self : t) : list string :=
  if (String.length (title_text self) =? 0)%nat then []
  else
    [ "-font " +:+ dq +:+ font_file self +:+ dq;
      "-fill " +:+ dq +:+ font_color self +:+ dq;
      "-pointsize " +:+ float_str (title_size self);
      "-kerning " +:+ float_str (title_kerning self);
      "-interline-spacing " +:+ str_int (font_interline_spacing self);
      "-interword-spacing " +:+ str_int (font_interword_spacing self);
      "-gravity center";
      title_annotate self ].

(** The local variables of [index_text_commands]. *)
Definition y_position (self : t) : Z := 810 + font_vertical_shift self.
Definition x_position (title_text_dimensions : Dimensions) : Q :=
  (inject_Z (WIDTH + width title_text_dimensions) / 2 + 20)%Q.
Definition index_font_size (self : t) : Q := (70 * font_size_modifier self)%Q.

(** The two annotate instructions of the index text, one per mode. *)
Definition compact_annotate (self : t) (title_text_dimensions : Dimensions)
    (text : string) : string :=
  "-annotate " +:+ float_plus (x_position title_text_dimensions)
    +:+ plus_int (y_position self) +:+ " " +:+ dq +:+ text +:+ dq.

Definition fixed_annotate (self : t) (text : string) : string :=
  "-annotate +" +:+ str_int (border_size self)
    +:+ plus_int (y_position self) +:+ " " +:+ dq +:+ text +:+ dq.

Definition season_text_command (self : t) (title_text_dimensions : Dimensions)
  : list string :=
  if negb (hide_season_text self) then
    if String.eqb (episode_text_position self) "compact" then
      [ "-gravity east";
        compact_annotate self title_text_dimensions (season_text self) ]
    else
      [ "-gravity west"; fixed_annotate self (season_text self) ]
  else [].

Definition episode_text_command (self : t) (title_text_dimensions : Dimensions)
  : list string :=
  if negb (hide_episode_text self) then
    if String.eqb (episode_text_position self) "compact" then
      [ "-gravity west";
        compact_annotate self title_text_dimensions (episode_text self) ]
    else
      [ "-gravity east"; fixed_annotate self (episode_text self) ]
  else [].

(** [index_text_commands]. *)
Definition index_text_commands (self : t) (title_text_dimensions : Dimensions)
  : list string :=
  if hide_season_text self && hide_episode_text self then []
  else
    [ "-font " +:+ dq +:+ resolve EPISODE_TEXT_FONT +:+ dq;
      "-fill " +:+ dq +:+ episode_text_color self +:+ dq;
      "-pointsize " +:+ float_str (index_font_size self);
      "-kerning 1";
      "-interword-spacing 15" ]
    ++ season_text_command self title_text_dimensions
    ++ episode_text_command self title_text_dimensions.

(** The three rectangles of [border_commands]. *)
Definition left_rectangle (self : t) : Rectangle :=
  {| start := at_ 0 0; end_ := at_ (border_size self) HEIGHT |}.
Definition top_rectangle (self : t) : Rectangle :=
  {| start := at_ 0 0; end_ := at_ WIDTH (border_size self) |}.
Definition right_rectangle (self : t) : Rectangle :=
  {| start := at_ (WIDTH - border_size self) 0; end_ := at_ WIDTH HEIGHT |}.

(** [border_commands]. *)
Definition border_commands (self : t) : list string :=
  if hide_border self then []
  else
    [ "-fill " +:+ dq +:+ border_color self +:+ dq;
      draw (left_rectangle self);
      draw (top_rectangle self);
      draw (right_rectangle self) ].

(** [bottom_border_commands]. *)
Definition bottom_rectangle (self : t) : Rectangle :=
  {| start := at_ 0 (HEIGHT - text_box_height self); end_ := at_ WIDTH HEIGHT |}.

Definition bottom_border_commands (self : t) : list string :=
  [ "-fill " +:+ dq +:+ text_box_color self +:+ dq;
    draw (bottom_rectangle self) ].

(** [get_text_dimensions], inherited: one measurement query, logged. *)
Definition get_text_dimensions (text_command : list string) (w h : dim_mode)
  : M (t * world) Dimensions :=
  bind (lift (emit (EvMeasure text_command w h)))
       (fun _ => ret (measure_text text_command w h)).

(** [self.font_size_modifier = q]. *)
Definition assign_font_size_modifier (q : Q) : M (t * world) unit :=
  fun cw =>
    (Returned tt,
     (set_font_size_modifier q (fst cw), record_event (EvSetFontSizeModifier q) (snd cw))).

Definition get_self : M (t * world) t := fun cw => (Returned (fst cw), cw).

(** [max_width / text_width]. *)
Definition divide (a b : Z) : M (t * world) Q :=
  match truediv a b with
  | Returned q => ret q
  | Raised e => raise e
  end.

(** The local variables of the text-fit step of [create]. *)
Definition margin (self : t) : Z :=
  20 * (2 - Z.b2z (hide_season_text self) - Z.b2z (hide_episode_text self)).
Definition text_width (self : t) (title_dims index_dims : Dimensions) : Z :=
  (width title_dims + width index_dims) + margin self.
Definition max_width (self : t) : Z := WIDTH - 2 * border_size self.

(** The command string [create] assembles from the final state of [self]
    and the final title dimensions. *)
Definition command (self : t) (title_text_dimensions : Dimensions) : string :=
  join " "
    ([ "convert " +:+ dq +:+ resolve (source_file self) +:+ dq ]
     ++ resize_and_style (blur self) (grayscale self)
     ++ [ "-resize " +:+ str_int (WIDTH - 2 * border_size self) +:+ "x";
          "-extent " +:+ TITLE_CARD_SIZE ]
     ++ border_commands self
     ++ bottom_border_commands self
     ++ title_text_commands self
     ++ index_text_commands self title_text_dimensions
     ++ resize_output
     ++ [ dq +:+ resolve (output_file self) +:+ dq ]).

(** The text-fit step: the body of [if self.fit_text:]; it returns the
    title dimensions to use from then on. *)
Definition fit (title_text_dimensions : Dimensions) : M (t * world) Dimensions :=
  (self <- get_self ;;
   index_text_dimensions <-
     get_text_dimensions (index_text_commands self title_text_dimensions)
       DimSum DimSum ;;
   let text_width := text_width self title_text_dimensions index_text_dimensions in
   let max_width := max_width self in
   if max_width <? text_width then
     q <- divide max_width text_width ;;
     assign_font_size_modifier q ;;;
     self <- get_self ;;
     get_text_dimensions (title_text_commands self) DimMax DimSum
   else ret title_text_dimensions)%py.

(** [create]. *)
Definition create : M (t * world) unit :=
  (self <- get_self ;;
   title_text_dimensions <-
     get_text_dimensions (title_text_commands self) DimMax DimSum ;;
   title_text_dimensions <-
     (if fit_text self then fit title_text_dimensions
      else ret title_text_dimensions) ;;
   self <- get_self ;;
   lift (ImageMagickInterface.run image_magick (command self title_text_dimensions)) ;;;
   ret tt)%py.

(** [is_custom_font]. *)
Definition is_custom_font (font : Font.t) : bool :=
  negb (String.eqb (Font.color font) TITLE_COLOR)
  || negb (String.eqb (Font.file font) TITLE_FONT)
  || negb (Font.interline_spacing font =? 0)
  || negb (Font.interword_spacing font =? 0)
  || negb (Qeq_bool (Font.kerning font) 1)
  || negb (Qeq_bool (Font.size font) 1)
  || negb (Font.vertical_shift font =? 0).

End Card.

End MarvelTitleCard.

(** ** modules/GenreMaker.py *)

(** The part of [ImageMaker] the genre maker relies on: the ImageMagick
    interface its constructor sets up. [module_directory] is
    [Path(__file__).parent]. *)
Class ImageMaker := {
  module_directory : string;
  maker_image_magick : ImageMagickInterface.t
}.

Module GenreMaker.

Record t := {
  source : string;
  genre : string;
  output : string
}.

Section Maker.
Context {os : OperatingSystem} {maker : ImageMaker}.

Definition FONT : string :=
  path_join (path_join module_directory "ref") "MyriadRegular.ttf".
Definition GENRE_GRADIENT : string :=
  path_join (path_join module_directory "ref") "genre_gradient.png".
Definition RESIZED_SOURCE : string :=
  path_join (path_join module_directory ".objects") "resized.png".
Definition SOURCE_WITH_GRADIENT : string :=
  path_join (path_join module_directory ".objects") "swg.png".

(** [path.exists()]. *)
Definition path_exists (path : string) : M world bool :=
  fun w => (Returned (bool_decide (path ∈ fs w)), w).

(** [error(message)] of [modules.Debug]: one line in the log. *)
Definition error (message : string) : M world unit := emit (EvLogError message).

(** [__resize_source]. *)
Definition resize_source (self : t) : M world string :=
  let command :=
    join " "
      [ "convert " +:+ dq +:+ resolve (source self) +:+ dq;
        "-resize 946x1446^";
        "-gravity center";
        "-extent 946x1446";
        dq +:+ resolve RESIZED_SOURCE +:+ dq ] in
  (ImageMagickInterface.run maker_image_magick command ;;;
   ret RESIZED_SOURCE)%py.

(** [__add_gradient]. *)
Definition add_gradient (self : t) (resized_source : string) : M world string :=
  let command :=
    join " "
      [ "convert " +:+ dq +:+ resolve resized_source +:+ dq;
        dq +:+ resolve GENRE_GRADIENT +:+ dq;
        "-gravity south";
        "-composite";
        dq +:+ resolve SOURCE_WITH_GRADIENT +:+ dq ] in
  (ImageMagickInterface.run maker_image_magick command ;;;
   ret SOURCE_WITH_GRADIENT)%py.

(** [__add_text_and_border]. *)
Definition add_text_and_border (self : t) (source_with_gradient : string)
  : M world string :=
  let command :=
    join " "
      [ "convert " +:+ dq +:+ resolve source_with_gradient +:+ dq;
        "-gravity south";
        "-font " +:+ dq +:+ resolve FONT +:+ dq;
        "-bordercolor white";
        "-border 27x27";
        "-fill white";
        "-pointsize 159";
        "-kerning 2.25";
        "-annotate +0+100 " +:+ dq +:+ genre self +:+ dq;
        dq +:+ resolve (output self) +:+ dq ] in
  (ImageMagickInterface.run maker_image_magick command ;;;
   ret (output self))%py.

(** The message [create] logs when the source is missing. *)
Definition missing_source_message (self : t) : string :=
  "Cannot create genre card, " +:+ dq +:+ resolve (source self) +:+ dq
    +:+ " does not exist.".

(** [create]: the returned value is always [None]. *)
Definition create (self : t) : M world unit :=
  (present <- path_exists (source self) ;;
   if negb present then
     error (missing_source_message self) ;;;
     ret tt
   else
     resized_source <- resize_source self ;;
     source_with_gradient <- add_gradient self resized_source ;;
     output <- add_text_and_border self source_with_gradient ;;
     ImageMagickInterface.delete_intermediate_images
       [resized_source; source_with_gradient])%py.

End Maker.

End GenreMaker.

(** ** A concrete environment, to run the definitions *)

(** Integral values print as Python prints them ([2120.0], [+2120.0],
    [55]); any other value prints as the exact fraction the embedding
    computed. *)
Definition exact_float_str (q : Q) : string :=
  let r := Qred q in
  if (Zpos (Qden r) =? 1) then str_int (Qnum r) +:+ ".0"
  else str_int (Qnum r) +:+ "/" +:+ str_int (Zpos (Qden r)).

Definition exact_float_plus (q : Q) : string :=
  if (Qnum q <? 0) then exact_float_str q else "+" +:+ exact_float_str q.

Definition exact_format : PyFloatFormat :=
  {| float_str := exact_float_str;
     float_plus := exact_float_plus;
     float_0f := fun q => str_int (round_half_even q) |}.

(** [shlex.split(s)] as Python runs it by default: POSIX rules, no
    comments, words split at white space. Outside quotes a backslash takes
    the next character as it is; single quotes take everything as it is;
    in double quotes a backslash escapes only a double quote or a
    backslash. The end of the text inside a quotation or right after a
    backslash is the ValueError. *)
Inductive lex_state :=
  | Blank
  | Word
  | Quoted (quote : ascii)
  | Escaped (back : lex_state).

Definition is_whitespace (c : ascii) : bool :=
  Ascii.eqb c " "%char || Ascii.eqb c "009"%char || Ascii.eqb c "013"%char
  || Ascii.eqb c "010"%char.

Definition is_quote (c : ascii) : bool :=
  Ascii.eqb c "039"%char || Ascii.eqb c "034"%char.

Definition is_escape (c : ascii) : bool := Ascii.eqb c "092"%char.

Definition push (token : string) (c : ascii) : string :=
  token +:+ String c EmptyString.

Fixpoint shlex_go (state : lex_state) (token : string) (done : list string)
    (s : string) : option (list string) :=
  match s with
  | EmptyString =>
      match state with
      | Blank => Some done
      | Word => Some (done ++ [token])
      | Quoted _ => None
      | Escaped _ => None
      end
  | String c rest =>
      match state with
      | Blank =>
          if is_whitespace c then shlex_go Blank token done rest
          else if is_escape c then shlex_go (Escaped Word) token done rest
          else if is_quote c then shlex_go (Quoted c) token done rest
          else shlex_go Word (String c EmptyString) done rest
      | Word =>
          if is_whitespace c then shlex_go Blank EmptyString (done ++ [token]) rest
          else if is_quote c then shlex_go (Quoted c) token done rest
          else if is_escape c then shlex_go (Escaped Word) token done rest
          else shlex_go Word (push token c) done rest
      | Quoted quote =>
          if Ascii.eqb c quote then shlex_go Word token done rest
          else if is_escape c && Ascii.eqb quote "034"%char
               then shlex_go (Escaped (Quoted quote)) token done rest
          else shlex_go (Quoted quote) (push token c) done rest
      | Escaped back =>
          match back with
          | Quoted quote =>
              if negb (is_escape c) && negb (Ascii.eqb c quote)
              then shlex_go back (push (push token "092"%char) c) done rest
              else shlex_go back (push token c) done rest
          | _ => shlex_go Word (push token c) done rest
          end
      end
  end.

Definition shlex_split (s : string) : option (list string) :=
  shlex_go Blank EmptyString [] s.

(** A render engine that writes nothing and reports nothing. *)
Definition quiet_os : OperatingSystem :=
  {| command_split := shlex_split;
     popen := fun _ files =>
       inr ({| stdout := EmptyString; stderr := EmptyString; returncode := 0 |},
            files);
     resolve := fun p => p |}.


(** A machine on which the render engine is not installed. *)
Definition bare_os : OperatingSystem :=
  {| command_split := shlex_split;
     popen := fun _ _ => inl CannotExecute;
     resolve := fun p => p |}.

(** Modelled from the spec: the canvas constants of [BaseCardType], which
    is not among the embedded files, as the 3200 x 1800 canvas of the
    specification's examples. The measurement answers the same dimensions
    for the title (mode [max]) and for the index text (mode [sum]) whatever
    the instructions. *)
Definition canvas (title_dims index_dims : Dimensions) : BaseCardType :=
  {| WIDTH := 3200;
     HEIGHT := 1800;
     TITLE_CARD_SIZE := "3200x1800";
     BASE_REF_DIRECTORY := "/ref";
     resize_and_style := fun _ _ => ["-resize 3200x1800^"];
     resize_output := ["-resize 3200x1800"];
     measure_text := fun _ w _ =>
       match w with DimMax => title_dims | DimSum => index_dims end;
     image_magick := ImageMagickInterface.init None false |}.

Definition genre_maker : ImageMaker :=
  {| module_directory := "/modules";
     maker_image_magick := ImageMagickInterface.init None false |}.

Definition fresh (files : gset string) : world := {| fs := files; log := [] |}.

Definition dims (w h : Z) : Dimensions := {| width := w; height := h |}.

(** Keyword arguments at their defaults except for the border size, the two
    visibility flags, the positioning mode and the fit-text flag. *)
Definition custom {os : OperatingSystem} {base : BaseCardType}
    (border : Z) (hide_season hide_episode : bool) (location : string)
    (fit : bool) : MarvelTitleCard.kwargs :=
  let d := MarvelTitleCard.defaults in
  {| MarvelTitleCard.kw_hide_season_text := hide_season;
     MarvelTitleCard.kw_hide_episode_text := hide_episode;
     MarvelTitleCard.kw_font_color := MarvelTitleCard.kw_font_color d;
     MarvelTitleCard.kw_font_file := MarvelTitleCard.kw_font_file d;
     MarvelTitleCard.kw_font_interline_spacing :=
       MarvelTitleCard.kw_font_interline_spacing d;
     MarvelTitleCard.kw_font_interword_spacing :=
       MarvelTitleCard.kw_font_interword_spacing d;
     MarvelTitleCard.kw_font_kerning := MarvelTitleCard.kw_font_kerning d;
     MarvelTitleCard.kw_font_size := MarvelTitleCard.kw_font_size d;
     MarvelTitleCard.kw_font_vertical_shift :=
       MarvelTitleCard.kw_font_vertical_shift d;
     MarvelTitleCard.kw_blur := MarvelTitleCard.kw_blur d;
     MarvelTitleCard.kw_grayscale := MarvelTitleCard.kw_grayscale d;
     MarvelTitleCard.kw_border_color := MarvelTitleCard.kw_border_color d;
     MarvelTitleCard.kw_border_size := border;
     MarvelTitleCard.kw_episode_text_color :=
       MarvelTitleCard.kw_episode_text_color d;
     MarvelTitleCard.kw_episode_text_location := location;
     MarvelTitleCard.kw_fit_text := fit;
     MarvelTitleCard.kw_hide_border := MarvelTitleCard.kw_hide_border d;
     MarvelTitleCard.kw_text_box_color := MarvelTitleCard.kw_text_box_color d;
     MarvelTitleCard.kw_text_box_height := MarvelTitleCard.kw_text_box_height d |}.

(** The card of the specification's worked example: default border, a
    title measured 3000 wide and index text measured 400 wide. *)
Definition wide_canvas : BaseCardType := canvas (dims 3000 100) (dims 400 70).
Definition wide_card : MarvelTitleCard.t :=
  MarvelTitleCard.init "source.jpg" "card.jpg" "A VERY LONG TITLE" "SEASON 1"
    "EPISODE 2" (custom (os := quiet_os) (base := wide_canvas) 55 false false "fixed" true).

(** A card whose text fits: title 1000 wide, index text 400 wide. *)
Definition narrow_canvas : BaseCardType := canvas (dims 1000 100) (dims 400 70).
Definition narrow_card : MarvelTitleCard.t :=
  MarvelTitleCard.init "source.jpg" "card.jpg" "TITLE" "SEASON 1" "EPISODE 2"
    (custom (os := quiet_os) (base := narrow_canvas) 55 false false "fixed" true).

(** A card with no text at all and a border wider than half the canvas. *)
Definition blank_canvas : BaseCardType := canvas (dims 0 0) (dims 0 0).
Definition blank_card : MarvelTitleCard.t :=
  MarvelTitleCard.init "source.jpg" "card.jpg" EmptyString EmptyString
    EmptyString (custom (os := quiet_os) (base := blank_canvas) 1601 true true "fixed" true).

(** A card with a border of 2000 and a title measured 100 wide. *)
Definition thick_canvas : BaseCardType := canvas (dims 100 100) (dims 0 0).
Definition thick_card : MarvelTitleCard.t :=
  MarvelTitleCard.init "source.jpg" "card.jpg" "TITLE" "SEASON 1" "EPISODE 2"
    (custom (os := quiet_os) (base := thick_canvas) 2000 false false "fixed" true).

(** A card with the default border whose text measures 3730 + 400 + 40 =
    4170 against an interior width of 3090. *)
Definition long_canvas : BaseCardType := canvas (dims 3730 100) (dims 400 70).
Definition long_card : MarvelTitleCard.t :=
  MarvelTitleCard.init "source.jpg" "card.jpg" "A MUCH LONGER TITLE" "SEASON 1"
    "EPISODE 2" (custom (os := quiet_os) (base := long_canvas) 55 false false "fixed" true).

(** A card whose title ends in a backslash. *)
Definition backslash_card : MarvelTitleCard.t :=
  MarvelTitleCard.init "source.jpg" "card.jpg" ("AC" +:+ backslash) "SEASON 1"
    "EPISODE 2" (custom (os := quiet_os) (base := narrow_canvas) 55 false false "fixed" false).

(** A compact card that hides the season text. *)
Definition compact_card : MarvelTitleCard.t :=
  MarvelTitleCard.init "source.jpg" "card.jpg" "TITLE" "SEASON 1" "EPISODE 2"
    (custom (os := quiet_os) (base := narrow_canvas) 55 true false "compact" true).

(** A genre card. *)
Definition horror : GenreMaker.t :=
  {| GenreMaker.source := "posters/horror.jpg";
     GenreMaker.genre := "HORROR";
     GenreMaker.output := "genres/horror.jpg" |}.

(** A genre card whose genre holds a double quote. *)
Definition scifi : GenreMaker.t :=
  {| GenreMaker.source := "posters/scifi.jpg";
     GenreMaker.genre := "Sci" +:+ dq +:+ "Fi";
     GenreMaker.output := "genres/scifi.jpg" |}.

(** Building a card on a canvas with the quiet engine, from an empty log. *)
Definition build (base : BaseCardType) (card : MarvelTitleCard.t)
    (files : gset string) : outcome unit * (MarvelTitleCard.t * world) :=
  MarvelTitleCard.create (fmt := exact_format) (os := quiet_os) (base := base)
    (card, fresh files).

(** The font described by the font arguments of the constructor. *)
Definition font_of_kwargs (kw : MarvelTitleCard.kwargs) : Font.t :=
  {| Font.color := MarvelTitleCard.kw_font_color kw;
     Font.file := MarvelTitleCard.kw_font_file kw;
     Font.interline_spacing := MarvelTitleCard.kw_font_interline_spacing kw;
     Font.interword_spacing := MarvelTitleCard.kw_font_interword_spacing kw;
     Font.kerning := MarvelTitleCard.kw_font_kerning kw;
     Font.size := MarvelTitleCard.kw_font_size kw;
     Font.vertical_shift := MarvelTitleCard.kw_font_vertical_shift kw |}.

(** A card in the default mode that hides the episode text only. *)
Definition season_only_card : MarvelTitleCard.t :=
  MarvelTitleCard.init "source.jpg" "card.jpg" "TITLE" "SEASON 1" "EPISODE 2"
    (custom (os := quiet_os) (base := narrow_canvas) 55 false true "fixed" false).

(** ** Reading the log *)

(** The measurement queries, the assignments to [font_size_modifier], the
    render-engine invocations and the error reports of a log, in order. *)
Definition measurements (l : list event) : list (list string * dim_mode * dim_mode) :=
  omap (fun e => match e with EvMeasure c w h => Some (c, w, h) | _ => None end) l.

Definition assignments (l : list event) : list Q :=
  omap (fun e => match e with EvSetFontSizeModifier q => Some q | _ => None end) l.

Definition invocations (l : list event) : list (list string) :=
  omap (fun e => match e with EvPopen argv => Some argv | _ => None end) l.

Definition errors (l : list event) : list string :=
  omap (fun e => match e with EvLogError m => Some m | _ => None end) l.

(** The number of index-text fields that are shown. *)
Definition shown_fields (self : MarvelTitleCard.t) : Z :=
  Z.of_nat (length (filter (fun hidden => hidden = false)
     [MarvelTitleCard.hide_season_text self; MarvelTitleCard.hide_episode_text self])).

(** The same card type with another measurement answer. *)
Definition with_measure (base : BaseCardType)
    (m : list string -> dim_mode -> dim_mode -> Dimensions) : BaseCardType :=
  {| WIDTH := @WIDTH base;
     HEIGHT := @HEIGHT base;
     TITLE_CARD_SIZE := @TITLE_CARD_SIZE base;
     BASE_REF_DIRECTORY := @BASE_REF_DIRECTORY base;
     resize_and_style := @resize_and_style base;
     resize_output := @resize_output base;
     measure_text := m;
     image_magick := @image_magick base |}.

(** The three command lines of the genre card, written with the
    concatenation of the Standard Library. *)
Section GenreCommands.
Context {os : OperatingSystem} {maker : ImageMaker}.
Import GenreMaker.

Definition resize_command (self : t) : string :=
  String.concat " "
    [ "convert " +:+ dq +:+ resolve (source self) +:+ dq;
      "-resize 946x1446^";
      "-gravity center";
      "-extent 946x1446";
      dq +:+ resolve RESIZED_SOURCE +:+ dq ].

Definition gradient_command : string :=
  String.concat " "
    [ "convert " +:+ dq +:+ resolve RESIZED_SOURCE +:+ dq;
      dq +:+ resolve GENRE_GRADIENT +:+ dq;
      "-gravity south";
      "-composite";
      dq +:+ resolve SOURCE_WITH_GRADIENT +:+ dq ].

Definition text_command (self : t) : string :=
  String.concat " "
    [ "convert " +:+ dq +:+ resolve SOURCE_WITH_GRADIENT +:+ dq;
      "-gravity south";
      "-font " +:+ dq +:+ resolve FONT +:+ dq;
      "-bordercolor white";
      "-border 27x27";
      "-fill white";
      "-pointsize 159";
      "-kerning 2.25";
      "-annotate +0+100 " +:+ dq +:+ genre self +:+ dq;
      dq +:+ resolve (output self) +:+ dq ].

End GenreCommands.

(** What the text-fit step of [create] measures on a card: the title at
    the card's current modifier, the index text placed with that title, and
    the combined width with its margin. *)
Section Measured.
Context {fmt : PyFloatFormat} {os : OperatingSystem} {base : BaseCardType}.
Import MarvelTitleCard.

Definition first_title_dims (self : t) : Dimensions :=
  measure_text (title_text_commands self) DimMax DimSum.

Definition first_index_dims (self : t) : Dimensions :=
  measure_text (index_text_commands self (first_title_dims self)) DimSum DimSum.

Definition measured_text_width (self : t) : Z :=
  text_width self (first_title_dims self) (first_index_dims self).

(** The last step of [create]: the command is handed to [run], whose
    result is dropped and whose exceptions pass through. *)
Definition submit (self : t) (title_text_dimensions : Dimensions) (w : world)
  : outcome unit * (t * world) :=
  match ImageMagickInterface.run image_magick (command self title_text_dimensions) w with
  | (Returned _, w') => (Returned tt, (self, w'))
  | (Raised e, w') => (Raised e, (self, w'))
  end.

End Measured.

(** * Properties *)

(** ** binary64 rounding and the division of integers *)

Section Binary64.

Lemma round_half_even_error (q : Q) :
  (q - (1 # 2) <= inject_Z (round_half_even q) <= q + (1 # 2))%Q.
Proof.
  destruct q as [n d]. unfold round_half_even. cbn [Qnum Qden].
  pose proof (Z.div_mod n (Zpos d) ltac:(lia)) as Hdiv.
  pose proof (Z.mod_pos_bound n (Zpos d) ltac:(lia)) as Hmod.
  set (f := n / Zpos d) in *.
  assert (Hrest : n - f * Zpos d = n mod Zpos d) by lia.
  rewrite Hrest.
  destruct (Z.ltb_spec (2 * (n mod Zpos d)) (Zpos d)) as [Hlow|Hhigh].
  - unfold Qle, Qminus, Qplus, Qopp, inject_Z. cbn. split; nia.
  - destruct (Z.ltb_spec (Zpos d) (2 * (n mod Zpos d))) as [Hup|Hmid].
    + unfold Qle, Qminus, Qplus, Qopp, inject_Z. cbn. split; nia.
    + destruct (Z.even f);
        unfold Qle, Qminus, Qplus, Qopp, inject_Z; cbn; split; nia.
Qed.

Lemma round_half_even_le (q : Q) (bound : Z) :
  (q <= inject_Z bound)%Q -> round_half_even q <= bound.
Proof.
  intros Hq. destruct (round_half_even_error q) as [_ Hup].
  assert (Hle : (inject_Z (round_half_even q) <= inject_Z bound + (1 # 2))%Q) by lra.
  unfold Qle, Qplus, inject_Z in Hle. cbn in Hle. lia.
Qed.

Lemma round_half_even_ge (q : Q) (bound : Z) :
  (inject_Z bound <= q)%Q -> bound <= round_half_even q.
Proof.
  intros Hq. destruct (round_half_even_error q) as [Hlow _].
  assert (Hle : (inject_Z bound - (1 # 2) <= inject_Z (round_half_even q))%Q) by lra.
  unfold Qle, Qminus, Qplus, Qopp, inject_Z in Hle. cbn in Hle. lia.
Qed.

Lemma two_power_positive (k : Z) : (0 < 2 ^ k)%Q.
Proof. apply Qpower_0_lt. reflexivity. Qed.

Lemma two_power_add (j k : Z) : (2 ^ (j + k) == 2 ^ j * 2 ^ k)%Q.
Proof. apply Qpower_plus. discriminate. Qed.

Lemma two_power_inject (k : Z) : 0 <= k -> (inject_Z (2 ^ k) == 2 ^ k)%Q.
Proof. intros Hk. now rewrite Zpower_Qpower. Qed.

Lemma two_power_le (j k : Z) : j <= k -> (2 ^ j <= 2 ^ k)%Q.
Proof. intros Hjk. apply Qpower_le_compat_l; [exact Hjk | discriminate]. Qed.

Lemma two_power_lt_inv (j k : Z) : (2 ^ j < 2 ^ k)%Q -> j < k.
Proof. intros Hlt. apply (Qpower_lt_compat_l_inv 2); [exact Hlt | reflexivity]. Qed.

(** The scaled value lies within half a unit of the significand. *)
Lemma binary64_magnitude_error (x : Q) :
  (Qabs x - 2 ^ binary64_exponent x * (1 # 2)
   <= binary64_magnitude x
   <= Qabs x + 2 ^ binary64_exponent x * (1 # 2))%Q.
Proof.
  unfold binary64_magnitude.
  pose proof (two_power_positive (binary64_exponent x)) as Hpos.
  set (unit := (2 ^ binary64_exponent x)%Q) in *.
  pose proof (round_half_even_error (Qabs x / unit)) as [Hlow Hup].
  set (m := inject_Z (round_half_even (Qabs x / unit))) in *.
  assert (Hscale : (Qabs x / unit * unit == Qabs x)%Q).
  { field. intros Hzero. rewrite Hzero in Hpos. now apply Qlt_irrefl in Hpos. }
  set (ratio := (Qabs x / unit)%Q) in *.
  assert (H1 : (0 <= (m - (ratio - (1 # 2))) * unit)%Q)
    by (apply Qmult_le_0_compat; lra).
  assert (H2 : (0 <= (ratio + (1 # 2) - m) * unit)%Q)
    by (apply Qmult_le_0_compat; lra).
  split; lra.
Qed.

Lemma binary64_magnitude_le (x : Q) (bound : Z) :
  (Qabs x <= inject_Z bound * 2 ^ binary64_exponent x)%Q ->
  (binary64_magnitude x <= inject_Z bound * 2 ^ binary64_exponent x)%Q.
Proof.
  intros Hx. unfold binary64_magnitude.
  pose proof (two_power_positive (binary64_exponent x)) as Hpos.
  apply Qmult_le_compat_r; [|now apply Qlt_le_weak].
  rewrite <- Zle_Qle. apply round_half_even_le.
  apply Qle_shift_div_r; assumption.
Qed.

Lemma binary64_magnitude_nonneg (x : Q) : (0 <= binary64_magnitude x)%Q.
Proof.
  unfold binary64_magnitude.
  pose proof (two_power_positive (binary64_exponent x)) as Hpos.
  apply Qmult_le_0_compat; [|now apply Qlt_le_weak].
  change 0%Q with (inject_Z 0). rewrite <- Zle_Qle. apply round_half_even_ge.
  apply Qle_shift_div_l; [assumption|].
  rewrite Qmult_0_l. apply Qabs_nonneg.
Qed.

(** Below one the exponent of the unit is at most -53. *)
Lemma floor_log2_below_one (y : Q) : (0 < y)%Q -> (y < 1)%Q -> floor_log2 y <= -1.
Proof.
  intros Hpos Hone. unfold floor_log2.
  destruct (Qle_bool (2 ^ (Z.log2 (Qnum y) - Z.log2 (Zpos (Qden y)))) y) eqn:Htest.
  - apply Qle_bool_iff in Htest.
    assert (Hlt : (2 ^ (Z.log2 (Qnum y) - Z.log2 (Zpos (Qden y))) < 2 ^ 0)%Q).
    { eapply Qle_lt_trans; [exact Htest | exact Hone]. }
    apply two_power_lt_inv in Hlt. lia.
  - destruct y as [n d]. cbn [Qnum Qden].
    unfold Qlt in Hone. cbn in Hone.
    assert (Hlog : Z.log2 n <= Z.log2 (Zpos d)) by (apply Z.log2_le_mono; lia).
    lia.
Qed.

Lemma binary64_exponent_below_one (x : Q) :
  (0 < x)%Q -> (x < 1)%Q -> binary64_exponent x <= -53.
Proof.
  intros Hpos Hone. unfold binary64_exponent.
  assert (Habs : (Qabs x == x)%Q) by (apply Qabs_pos; lra).
  pose proof (floor_log2_below_one (Qabs x)) as Hlog.
  assert (Hpos' : (0 < Qabs x)%Q) by (rewrite Habs; exact Hpos).
  assert (Hone' : (Qabs x < 1)%Q) by (rewrite Habs; exact Hone).
  specialize (Hlog Hpos' Hone'). lia.
Qed.

(** A positive value below one rounds to at most one, and stays below one
    when it is at most 1 - 1/b for some b up to 2^53. *)
Lemma binary64_magnitude_unit (x : Q) :
  (0 < x)%Q -> (x < 1)%Q -> (binary64_magnitude x <= 1)%Q.
Proof.
  intros Hpos Hone.
  pose proof (binary64_exponent_below_one x Hpos Hone) as Hexp.
  assert (Habs : (Qabs x == x)%Q) by (apply Qabs_pos; lra).
  assert (Hunit : (inject_Z (2 ^ (- binary64_exponent x)) * 2 ^ binary64_exponent x == 1)%Q).
  { rewrite two_power_inject by lia. rewrite <- two_power_add.
    replace (- binary64_exponent x + binary64_exponent x) with 0 by lia. reflexivity. }
  rewrite <- Hunit. apply binary64_magnitude_le. rewrite Hunit, Habs. lra.
Qed.

Lemma binary64_magnitude_below_one (x : Q) (b : Z) :
  (0 < x)%Q -> 0 < b <= 2 ^ 53 -> (x <= 1 - 1 / inject_Z b)%Q ->
  (binary64_magnitude x < 1)%Q.
Proof.
  intros Hpos Hb Hx.
  assert (Hbpos : (0 < inject_Z b)%Q) by (change 0%Q with (inject_Z 0); rewrite <- Zlt_Qlt; lia).
  assert (Hinv : (0 < 1 / inject_Z b)%Q) by (apply Qlt_shift_div_l; lra).
  assert (Hone : (x < 1)%Q) by lra.
  pose proof (binary64_exponent_below_one x Hpos Hone) as Hexp.
  assert (Habs : (Qabs x == x)%Q) by (apply Qabs_pos; lra).
  pose proof (two_power_positive (binary64_exponent x)) as Hupos.
  assert (Hunit : (inject_Z (2 ^ (- binary64_exponent x)) * 2 ^ binary64_exponent x == 1)%Q).
  { rewrite two_power_inject by lia. rewrite <- two_power_add.
    replace (- binary64_exponent x + binary64_exponent x) with 0 by lia. reflexivity. }
  assert (Hsmall : (2 ^ binary64_exponent x <= 1 / inject_Z b)%Q).
  { apply Qle_shift_div_l; [exact Hbpos|].
    assert (Hb53 : (inject_Z b <= 2 ^ 53)%Q).
    { rewrite <- two_power_inject by lia. rewrite <- Zle_Qle. lia. }
    assert (Hexp53 : (2 ^ binary64_exponent x <= 2 ^ (-53))%Q) by (apply two_power_le; lia).
    assert (Hprod : (2 ^ (-53) * 2 ^ 53 == 1)%Q) by reflexivity.
    assert (H1 : (2 ^ binary64_exponent x * inject_Z b <= 2 ^ (-53) * inject_Z b)%Q).
    { apply Qmult_le_compat_r; [exact Hexp53 | lra]. }
    assert (H2 : (2 ^ (-53) * inject_Z b <= 2 ^ (-53) * 2 ^ 53)%Q).
    { apply Qmult_le_l; [reflexivity | exact Hb53]. }
    lra. }
  assert (Hbound : (binary64_magnitude x
                    <= inject_Z (2 ^ (- binary64_exponent x) + -1) * 2 ^ binary64_exponent x)%Q).
  { apply binary64_magnitude_le. rewrite Habs.
    rewrite inject_Z_plus, Qmult_plus_distr_l, Hunit.
    change (inject_Z (-1)) with (- (1))%Q. lra. }
  rewrite inject_Z_plus, Qmult_plus_distr_l, Hunit in Hbound.
  change (inject_Z (-1)) with (- (1))%Q in Hbound. lra.
Qed.

Lemma two_power_quotient (a b : Z) :
  0 <= a -> 0 <= b -> (2 ^ (a - b) == inject_Z (2 ^ a) / inject_Z (2 ^ b))%Q.
Proof.
  intros Ha Hb. rewrite !two_power_inject by assumption.
  unfold Z.sub. rewrite two_power_add, Qpower_opp. reflexivity.
Qed.

Lemma ratio_below (n A B : Z) (d : positive) :
  0 < B -> n * B < A * Zpos d -> (n # d < inject_Z A / inject_Z B)%Q.
Proof.
  intros HB Hlt. apply Qlt_shift_div_l.
  - change 0%Q with (inject_Z 0). rewrite <- Zlt_Qlt. exact HB.
  - unfold Qlt, Qmult, inject_Z. cbn. lia.
Qed.

Lemma ratio_above (n A B : Z) (d : positive) :
  0 < B -> A * Zpos d < n * B -> (inject_Z A / inject_Z B < n # d)%Q.
Proof.
  intros HB Hlt. apply Qlt_shift_div_r.
  - change 0%Q with (inject_Z 0). rewrite <- Zlt_Qlt. exact HB.
  - unfold Qlt, Qmult, inject_Z. cbn. lia.
Qed.

(** [floor_log2 y] is the integer part of the binary logarithm. *)
Lemma floor_log2_spec (y : Q) :
  (0 < y)%Q -> (2 ^ floor_log2 y <= y)%Q /\ (y < 2 ^ (floor_log2 y + 1))%Q.
Proof.
  intros Hpos. destruct y as [n d].
  assert (Hn : 0 < n) by (unfold Qlt in Hpos; cbn in Hpos; lia).
  pose proof (Z.log2_spec n Hn) as [Hnlow Hnup].
  pose proof (Z.log2_spec (Zpos d) ltac:(lia)) as [Hdlow Hdup].
  pose proof (Z.log2_nonneg n) as Hln.
  pose proof (Z.log2_nonneg (Zpos d)) as Hld.
  assert (Hpow_n : 0 < 2 ^ Z.log2 n) by (apply Z.pow_pos_nonneg; lia).
  assert (Hpow_d : 0 < 2 ^ Z.log2 (Zpos d)) by (apply Z.pow_pos_nonneg; lia).
  assert (Hup : (n # d < 2 ^ (Z.log2 n - Z.log2 (Zpos d) + 1))%Q).
  { replace (Z.log2 n - Z.log2 (Zpos d) + 1) with (Z.succ (Z.log2 n) - Z.log2 (Zpos d)) by lia.
    rewrite two_power_quotient by lia. apply ratio_below; [exact Hpow_d|]. nia. }
  assert (Hlow : (2 ^ (Z.log2 n - Z.log2 (Zpos d) - 1) < n # d)%Q).
  { replace (Z.log2 n - Z.log2 (Zpos d) - 1) with (Z.log2 n - Z.succ (Z.log2 (Zpos d))) by lia.
    rewrite two_power_quotient by lia. apply ratio_above; [lia|]. nia. }
  unfold floor_log2. cbn [Qnum Qden].
  destruct (Qle_bool (2 ^ (Z.log2 n - Z.log2 (Zpos d))) (n # d)) eqn:Htest.
  - apply Qle_bool_iff in Htest. split; assumption.
  - split; [now apply Qlt_le_weak|].
    replace (Z.log2 n - Z.log2 (Zpos d) - 1 + 1) with (Z.log2 n - Z.log2 (Zpos d)) by lia.
    apply Qnot_le_lt. intros Hle. apply Qle_bool_iff in Hle. congruence.
Qed.

(** In the normal range the unit is at most 2^-52 times the value. *)
Lemma binary64_unit_normal (x : Q) :
  (2 ^ (-1022) <= Qabs x)%Q ->
  (2 ^ binary64_exponent x <= Qabs x * 2 ^ (-52))%Q.
Proof.
  intros Hnormal.
  assert (Hpos : (0 < Qabs x)%Q).
  { eapply Qlt_le_trans; [apply (two_power_positive (-1022)) | exact Hnormal]. }
  destruct (floor_log2_spec (Qabs x) Hpos) as [Hlow Hup].
  assert (Hexp : -1022 < floor_log2 (Qabs x) + 1).
  { apply two_power_lt_inv. eapply Qle_lt_trans; [exact Hnormal | exact Hup]. }
  unfold binary64_exponent. rewrite Z.max_l by lia.
  unfold Z.sub. rewrite two_power_add.
  apply Qmult_le_compat_r; [exact Hlow|].
  apply Qlt_le_weak, two_power_positive.
Qed.

Lemma binary64_relative_error (x : Q) :
  (2 ^ (-1022) <= Qabs x)%Q ->
  (Qabs x - Qabs x * 2 ^ (-53) <= binary64_magnitude x
   <= Qabs x + Qabs x * 2 ^ (-53))%Q.
Proof.
  intros Hnormal.
  pose proof (binary64_unit_normal x Hnormal) as Hunit.
  pose proof (binary64_magnitude_error x) as [Hlow Hup].
  assert (Hhalf : (2 ^ (-52) * (1 # 2) == 2 ^ (-53))%Q) by reflexivity.
  set (unit := (2 ^ binary64_exponent x)%Q) in *.
  set (y := Qabs x) in *.
  assert (H53 : (y * 2 ^ (-53) == y * 2 ^ (-52) * (1 # 2))%Q).
  { rewrite <- Hhalf. ring. }
  split; rewrite H53; lra.
Qed.

(** Rounding in the normal range: no overflow below 2^1023, relative error
    at most 2^-53, and the sign is kept. *)
Lemma round_binary64_normal (x : Q) :
  (2 ^ (-1022) <= Qabs x)%Q -> (Qabs x <= 2 ^ 1023)%Q ->
  exists q,
    round_binary64 x = Some q
    /\ (Qabs (q - x) <= Qabs x * 2 ^ (-53))%Q
    /\ ((0 <= x)%Q -> (0 <= q)%Q)
    /\ ((x <= 0)%Q -> (q <= 0)%Q).
Proof.
  intros Hnormal Hbig.
  pose proof (binary64_relative_error x Hnormal) as [Hlow Hup].
  pose proof (binary64_magnitude_nonneg x) as Hnonneg.
  assert (Hpos : (0 < Qabs x)%Q).
  { eapply Qlt_le_trans; [apply (two_power_positive (-1022)) | exact Hnormal]. }
  assert (Hsmall : (0 < 2 ^ (-53))%Q) by apply two_power_positive.
  assert (Hone : (2 ^ (-53) < 1)%Q) by reflexivity.
  assert (Hdouble : (2 ^ 1023 + 2 ^ 1023 == 2 ^ 1024)%Q) by reflexivity.
  assert (Hprod : (Qabs x * 2 ^ (-53) < Qabs x)%Q).
  { rewrite <- (Qmult_1_r (Qabs x)) at 2. apply Qmult_lt_l; assumption. }
  unfold round_binary64.
  destruct (Qeq_bool x 0) eqn:Hzero.
  { apply Qeq_bool_iff in Hzero. rewrite Hzero in Hpos. now apply Qlt_irrefl in Hpos. }
  destruct (Qle_bool (2 ^ 1024) (binary64_magnitude x)) eqn:Hover.
  { apply Qle_bool_iff in Hover. lra. }
  destruct (Qle_bool 0 x) eqn:Hsign.
  - apply Qle_bool_iff in Hsign.
    assert (Habs : (Qabs x == x)%Q) by now apply Qabs_pos.
    exists (binary64_magnitude x). split; [reflexivity|]. split; [|split].
    + apply Qabs_Qle_condition. rewrite Habs in *. split; lra.
    + intros _. exact Hnonneg.
    + intros Hneg. assert (Hx : (x == 0)%Q) by lra. rewrite <- Habs in Hx. lra.
  - assert (Hneg : (x < 0)%Q).
    { apply Qnot_le_lt. intros Hle. apply Qle_bool_iff in Hle. congruence. }
    assert (Habs : (Qabs x == - x)%Q) by (apply Qabs_neg; lra).
    exists (- binary64_magnitude x)%Q. split; [reflexivity|]. split; [|split].
    + apply Qabs_Qle_condition. rewrite Habs in *. split; lra.
    + intros Hge. lra.
    + intros _. lra.
Qed.

(** Rounding a value of the unit interval. *)
Lemma round_binary64_unit (x : Q) :
  (0 <= x)%Q -> (x < 1)%Q ->
  exists q, round_binary64 x = Some q /\ (0 <= q)%Q /\ (q <= 1)%Q.
Proof.
  intros Hge Hone. unfold round_binary64.
  destruct (Qeq_bool x 0) eqn:Hzero.
  { exists 0%Q. split; [reflexivity|]. split; [apply Qle_refl | discriminate]. }
  assert (Hpos : (0 < x)%Q).
  { apply Qeq_bool_neq in Hzero. apply Qle_lt_or_eq in Hge as [Hlt|Heq]; [exact Hlt|].
    contradiction Hzero. now symmetry. }
  pose proof (binary64_magnitude_unit x Hpos Hone) as Hunit.
  pose proof (binary64_magnitude_nonneg x) as Hnonneg.
  assert (Hbig : (1 < 2 ^ 1024)%Q) by reflexivity.
  destruct (Qle_bool (2 ^ 1024) (binary64_magnitude x)) eqn:Hover.
  { apply Qle_bool_iff in Hover. lra. }
  assert (Hsign : Qle_bool 0 x = true) by now apply Qle_bool_iff.
  rewrite Hsign. exists (binary64_magnitude x). auto.
Qed.

Lemma round_binary64_below_one (x : Q) (b : Z) :
  (0 <= x)%Q -> 0 < b <= 2 ^ 53 -> (x <= 1 - 1 / inject_Z b)%Q ->
  forall q, round_binary64 x = Some q -> (q < 1)%Q.
Proof.
  intros Hge Hb Hx q. unfold round_binary64.
  destruct (Qeq_bool x 0) eqn:Hzero.
  { intros [= <-]. reflexivity. }
  assert (Hpos : (0 < x)%Q).
  { apply Qeq_bool_neq in Hzero. apply Qle_lt_or_eq in Hge as [Hlt|Heq]; [exact Hlt|].
    contradiction Hzero. now symmetry. }
  pose proof (binary64_magnitude_below_one x b Hpos Hb Hx) as Hbelow.
  destruct (Qle_bool (2 ^ 1024) (binary64_magnitude x)); [discriminate|].
  assert (Hsign : Qle_bool 0 x = true) by now apply Qle_bool_iff.
  rewrite Hsign. intros [= <-]. exact Hbelow.
Qed.

(** [truediv] raises ZeroDivisionError exactly on a zero divisor. *)
Lemma truediv_zero_division (a b : Z) :
  truediv a b = Raised ZeroDivisionError <-> b = 0.
Proof.
  unfold truediv. destruct (Z.eqb_spec b 0) as [Hz|Hnz].
  - tauto.
  - destruct (round_binary64 (inject_Z a / inject_Z b)); split; congruence.
Qed.

Lemma inject_Z_positive (b : Z) : 0 < b -> (0 < inject_Z b)%Q.
Proof. intros Hb. change 0%Q with (inject_Z 0). now rewrite <- Zlt_Qlt. Qed.

(** The quotient of a non-negative integer by a larger one is a float of
    the unit interval. *)
Lemma truediv_unit (a b : Z) :
  0 <= a < b ->
  exists q, truediv a b = Returned q /\ (0 <= q)%Q /\ (q <= 1)%Q.
Proof.
  intros [Ha Hab]. unfold truediv.
  destruct (Z.eqb_spec b 0) as [Hz|_]; [lia|].
  pose proof (inject_Z_positive b ltac:(lia)) as Hb.
  assert (Hge : (0 <= inject_Z a / inject_Z b)%Q).
  { apply Qle_shift_div_l; [exact Hb|]. rewrite Qmult_0_l.
    change 0%Q with (inject_Z 0). now rewrite <- Zle_Qle. }
  assert (Hlt : (inject_Z a / inject_Z b < 1)%Q).
  { apply Qlt_shift_div_r; [exact Hb|]. rewrite Qmult_1_l. now rewrite <- Zlt_Qlt. }
  destruct (round_binary64_unit _ Hge Hlt) as (q & Hq & Hq0 & Hq1).
  rewrite Hq. eauto.
Qed.

(** It is strictly below one when the divisor is at most 2^53. *)
Lemma truediv_below_one (a b : Z) (q : Q) :
  0 <= a < b -> b <= 2 ^ 53 -> truediv a b = Returned q -> (q < 1)%Q.
Proof.
  intros [Ha Hab] Hb53. unfold truediv.
  destruct (Z.eqb_spec b 0) as [Hz|_]; [lia|].
  pose proof (inject_Z_positive b ltac:(lia)) as Hb.
  assert (Hge : (0 <= inject_Z a / inject_Z b)%Q).
  { apply Qle_shift_div_l; [exact Hb|]. rewrite Qmult_0_l.
    change 0%Q with (inject_Z 0). now rewrite <- Zle_Qle. }
  assert (Hgap : (inject_Z a / inject_Z b <= 1 - 1 / inject_Z b)%Q).
  { assert (Hle : (inject_Z a + 1 <= inject_Z b)%Q).
    { change 1%Q with (inject_Z 1). rewrite <- inject_Z_plus, <- Zle_Qle. lia. }
    assert (Heq : (1 - 1 / inject_Z b == (inject_Z b - 1) / inject_Z b)%Q).
    { field. intros Hzero. rewrite Hzero in Hb. now apply Qlt_irrefl in Hb. }
    rewrite Heq. apply Qle_shift_div_l; [exact Hb|].
    assert (Hcancel : (inject_Z a / inject_Z b * inject_Z b == inject_Z a)%Q).
    { field. intros Hzero. rewrite Hzero in Hb. now apply Qlt_irrefl in Hb. }
    rewrite Hcancel. lra. }
  destruct (round_binary64 (inject_Z a / inject_Z b)) as [r|] eqn:Hr; [|discriminate].
  intros [= <-].
  exact (round_binary64_below_one _ b Hge ltac:(lia) Hgap r Hr).
Qed.

(** For integers that are exact as floats the division returns, its
    result times the divisor is the dividend up to a relative error of
    2^-53, and a dividend that is not positive gives a result that is not
    positive. *)
Lemma truediv_exact_range (a b : Z) :
  0 < b <= 2 ^ 53 -> - 2 ^ 53 <= a <= 2 ^ 53 ->
  exists q,
    truediv a b = Returned q
    /\ (Qabs (q * inject_Z b - inject_Z a) <= Qabs (inject_Z a) * 2 ^ (-53))%Q
    /\ (a <= 0 -> (q <= 0)%Q).
Proof.
  intros [Hbpos Hb53] [Halow Haup]. unfold truediv.
  destruct (Z.eqb_spec b 0) as [Hz|_]; [lia|].
  pose proof (inject_Z_positive b Hbpos) as Hb.
  assert (Hbnz : ~ (inject_Z b == 0)%Q).
  { intros Hzero. rewrite Hzero in Hb. now apply Qlt_irrefl in Hb. }
  set (x := (inject_Z a / inject_Z b)%Q).
  assert (Hcancel : (x * inject_Z b == inject_Z a)%Q) by (unfold x; now field).
  destruct (Z.eq_dec a 0) as [Hzero|Hnz].
  - subst a. exists 0%Q. split; [|split].
    + reflexivity.
    + rewrite Qmult_0_l. discriminate.
    + intros _. apply Qle_refl.
  - assert (Habs_b : (Qabs (inject_Z b) == inject_Z b)%Q) by (apply Qabs_pos; lra).
    assert (Habs_x : (Qabs x * inject_Z b == Qabs (inject_Z a))%Q).
    { rewrite <- Hcancel, Qabs_Qmult, Habs_b. reflexivity. }
    assert (Habs_a : (1 <= Qabs (inject_Z a) <= 2 ^ 53)%Q).
    { rewrite <- (two_power_inject 53) by lia.
      change 1%Q with (inject_Z 1).
      destruct (Z_le_gt_dec 0 a) as [Hpos|Hneg].
      - rewrite Qabs_pos by (change 0%Q with (inject_Z 0); rewrite <- Zle_Qle; lia).
        rewrite <- !Zle_Qle. lia.
      - rewrite Qabs_neg by (change 0%Q with (inject_Z 0); rewrite <- Zle_Qle; lia).
        rewrite <- inject_Z_opp, <- !Zle_Qle. lia. }
    assert (Hb_up : (inject_Z b <= 2 ^ 53)%Q).
    { rewrite <- (two_power_inject 53) by lia. now rewrite <- Zle_Qle. }
    assert (Hb_low : (1 <= inject_Z b)%Q).
    { change 1%Q with (inject_Z 1). rewrite <- Zle_Qle. lia. }
    assert (Hxnonneg : (0 <= Qabs x)%Q) by apply Qabs_nonneg.
    assert (Hnormal : (2 ^ (-1022) <= Qabs x)%Q).
    { assert (Hstep : (2 ^ (-53) <= Qabs x)%Q).
      { assert (Hprod : (2 ^ (-53) * inject_Z b <= Qabs x * inject_Z b)%Q).
        { rewrite Habs_x.
          assert (H53 : (2 ^ (-53) * 2 ^ 53 == 1)%Q) by reflexivity.
          assert (Hmul : (2 ^ (-53) * inject_Z b <= 2 ^ (-53) * 2 ^ 53)%Q).
          { apply Qmult_le_l; [reflexivity | exact Hb_up]. }
          lra. }
        apply Qmult_le_r in Hprod; assumption. }
      assert (Hsmall : (2 ^ (-1022) <= 2 ^ (-53))%Q) by (apply two_power_le; lia).
      lra. }
    assert (Hbig : (Qabs x <= 2 ^ 1023)%Q).
    { assert (Hle : (Qabs x <= Qabs x * inject_Z b)%Q).
      { assert (Hgap : (0 <= Qabs x * (inject_Z b - 1))%Q)
          by (apply Qmult_le_0_compat; lra).
        lra. }
      assert (Hpow : (2 ^ 53 <= 2 ^ 1023)%Q) by (apply two_power_le; lia).
      lra. }
    destruct (round_binary64_normal x Hnormal Hbig) as (q & Hq & Herr & _ & Hsign).
    rewrite Hq. exists q. split; [reflexivity|]. split.
    + assert (Heq : (q * inject_Z b - inject_Z a == (q - x) * inject_Z b)%Q).
      { rewrite <- Hcancel. ring. }
      rewrite Heq, Qabs_Qmult, Habs_b.
      assert (Hscaled : (Qabs (q - x) * inject_Z b <= Qabs x * 2 ^ (-53) * inject_Z b)%Q).
      { apply Qmult_le_compat_r; [exact Herr | lra]. }
      assert (Hshape : (Qabs x * 2 ^ (-53) * inject_Z b
                        == Qabs (inject_Z a) * 2 ^ (-53))%Q).
      { rewrite <- Habs_x. ring. }
      lra.
    + intros Hneg. apply Hsign. unfold x.
      apply Qle_shift_div_r; [exact Hb|]. rewrite Qmult_0_l.
      change 0%Q with (inject_Z 0). now rewrite <- Zle_Qle.
Qed.

End Binary64.

(** ** The Marvel card *)

Section CardProperties.
Context {fmt : PyFloatFormat} {os : OperatingSystem} {base : BaseCardType}.
Import MarvelTitleCard.

Lemma measurements_app (l1 l2 : list event) :
  measurements (l1 ++ l2) = measurements l1 ++ measurements l2.
Proof. unfold measurements. apply omap_app. Qed.

Lemma assignments_app (l1 l2 : list event) :
  assignments (l1 ++ l2) = assignments l1 ++ assignments l2.
Proof. unfold assignments. apply omap_app. Qed.

Lemma invocations_app (l1 l2 : list event) :
  invocations (l1 ++ l2) = invocations l1 ++ invocations l2.
Proof. unfold invocations. apply omap_app. Qed.

Lemma errors_app (l1 l2 : list event) :
  errors (l1 ++ l2) = errors l1 ++ errors l2.
Proof. unfold errors. apply omap_app. Qed.

(** [join] is the concatenation with separators of the Standard Library. *)
Lemma join_concat (sep : string) (parts : list string) :
  join sep parts = String.concat sep parts.
Proof.
  induction parts as [|p rest IH]; [reflexivity|].
  destruct rest as [|p' rest]; [reflexivity|].
  cbn [join String.concat] in *. now rewrite IH.
Qed.

(** The two ways [submit] can end: the command was split and the process
    ran, or one of the two raised and nothing happened. *)
Lemma submit_cases (self : t) (dims : Dimensions) (w : world) :
  (exists argv finished files,
     command_split (ImageMagickInterface.command_line image_magick (command self dims))
       = Some argv
     /\ popen argv (fs w) = inr (finished, files)
     /\ submit self dims w
        = (Returned tt, (self, {| fs := files; log := log w ++ [EvPopen argv] |})))
  \/ (exists e,
        (e = ValueError \/ e = OSError)
        /\ submit self dims w = (Raised e, (self, w))).
Proof.
  unfold submit, ImageMagickInterface.run.
  destruct (command_split _) as [argv|].
  - destruct (popen argv (fs w)) as [e|[finished files]] eqn:Hpopen.
    + right. exists (exn_of_popen e). split; [destruct e; auto | reflexivity].
    + left. exists argv, finished, files. auto.
  - right. exists ValueError. auto.
Qed.

Ltac run_create :=
  cbv [create fit divide assign_font_size_modifier bind raise get_self
       get_text_dimensions lift emit ret record_event];
  cbn [fst snd fs log].

Lemma submit_unfold (self : t) (dims : Dimensions) (w : world) :
  (let (o, s') :=
     let (r, w') := ImageMagickInterface.run image_magick (command self dims) w in
     (r, (self, w')) in
   match o with
   | Returned _ => (Returned tt, s')
   | Raised e => (Raised e, s')
   end) = submit self dims w.
Proof.
  unfold submit.
  destruct (ImageMagickInterface.run image_magick (command self dims) w) as [[?|?] ?];
    reflexivity.
Qed.

(** [create] without text fitting: one measurement, then the command. *)
Lemma create_unfitted (self : t) (w : world) :
  fit_text self = false ->
  create (self, w) =
    submit self (first_title_dims self)
      {| fs := fs w;
         log := log w ++ [ EvMeasure (title_text_commands self) DimMax DimSum ] |}.
Proof.
  intros Hfit. run_create. rewrite Hfit. run_create. apply submit_unfold.
Qed.

(** [create] with text fitting, when the text fits: two measurements, no
    assignment, then the command. *)
Lemma create_fitting (self : t) (w : world) :
  fit_text self = true ->
  measured_text_width self <= max_width self ->
  create (self, w) =
    submit self (first_title_dims self)
      {| fs := fs w;
         log := log w
           ++ [ EvMeasure (title_text_commands self) DimMax DimSum;
                EvMeasure (index_text_commands self (first_title_dims self))
                  DimSum DimSum ] |}.
Proof.
  intros Hfit Hle. run_create. rewrite Hfit. run_create.
  fold (first_title_dims self). fold (first_index_dims self).
  fold (measured_text_width self).
  destruct (Z.ltb_spec (max_width self) (measured_text_width self)) as [Hlt|_];
    [lia|].
  run_create. rewrite <- !app_assoc. apply submit_unfold.
Qed.

(** [create] with text fitting, when the text is too wide and the division
    returns: the modifier is assigned, the title is measured again, and the
    command is built from the new state. *)
Lemma create_shrinking (self : t) (w : world) (q : Q) :
  fit_text self = true ->
  max_width self < measured_text_width self ->
  truediv (max_width self) (measured_text_width self) = Returned q ->
  create (self, w) =
    submit (set_font_size_modifier q self)
      (first_title_dims (set_font_size_modifier q self))
      {| fs := fs w;
         log := log w
           ++ [ EvMeasure (title_text_commands self) DimMax DimSum;
                EvMeasure (index_text_commands self (first_title_dims self))
                  DimSum DimSum;
                EvSetFontSizeModifier q;
                EvMeasure (title_text_commands (set_font_size_modifier q self))
                  DimMax DimSum ] |}.
Proof.
  intros Hfit Hlt Hdiv. run_create. rewrite Hfit. run_create.
  fold (first_title_dims self). fold (first_index_dims self).
  fold (measured_text_width self).
  destruct (Z.ltb_spec (max_width self) (measured_text_width self)) as [_|Hle];
    [|lia].
  rewrite Hdiv. run_create. rewrite <- !app_assoc. apply submit_unfold.
Qed.

(** [create] with text fitting, when the division raises: the exception
    leaves [create] after the two measurements, before any assignment or
    invocation. *)
Lemma create_raising (self : t) (w : world) (e : exn) :
  fit_text self = true ->
  max_width self < measured_text_width self ->
  truediv (max_width self) (measured_text_width self) = Raised e ->
  create (self, w) =
    (Raised e,
     (self,
      {| fs := fs w;
         log := log w
           ++ [ EvMeasure (title_text_commands self) DimMax DimSum;
                EvMeasure (index_text_commands self (first_title_dims self))
                  DimSum DimSum ] |})).
Proof.
  intros Hfit Hlt Hdiv. run_create. rewrite Hfit. run_create.
  fold (first_title_dims self). fold (first_index_dims self).
  fold (measured_text_width self).
  destruct (Z.ltb_spec (max_width self) (measured_text_width self)) as [_|Hle];
    [|lia].
  rewrite Hdiv. run_create. rewrite <- !app_assoc. reflexivity.
Qed.

(** What [submit] leaves untouched. *)
Lemma submit_frame (self : t) (dims : Dimensions) (w : world) :
  fst (snd (submit self dims w)) = self
  /\ measurements (log (snd (snd (submit self dims w)))) = measurements (log w)
  /\ assignments (log (snd (snd (submit self dims w)))) = assignments (log w)
  /\ fst (submit self dims w) <> Raised ZeroDivisionError
  /\ fst (submit self dims w) <> Raised OverflowError
  /\ exists added, log (snd (snd (submit self dims w))) = log w ++ added.
Proof.
  destruct (submit_cases self dims w)
    as [(argv & finished & files & _ & _ & ->)|(e & He & ->)]; cbn [fst snd log].
  - rewrite measurements_app, assignments_app. cbn. rewrite !app_nil_r.
    repeat split; try discriminate. eauto.
  - repeat split; try (destruct He; subst e; discriminate).
    exists []. now rewrite app_nil_r.
Qed.

(** The margin is 20 per index-text field that is shown. *)
Lemma margin_shown_fields (self : t) : margin self = 20 * shown_fields self.
Proof.
  unfold margin, shown_fields.
  destruct (hide_season_text self), (hide_episode_text self); reflexivity.
Qed.

(** C1 (as amended): with fit_text enabled, text_width is the measured title
    width plus the measured index width plus 20 per shown index field and
    max_width is the canvas width minus twice the border. When text_width
    exceeds max_width, text_width is positive and both are at most 2^53 in
    magnitude, font_size_modifier becomes the binary64 quotient
    max_width / text_width: the modifier times text_width is max_width up
    to a relative error of 2^-53, the modifier is below 1, it is assigned
    once and the title is measured once more, at the new modifier. When
    text_width is at most max_width the modifier stays at 1.0, nothing is
    assigned and only the two initial measurements are made. *)
Theorem text_fit_resolution
    (source card_file title season episode : string) (kw : kwargs)
    (files : gset string) :
  kw_fit_text kw = true ->
  let self := init source card_file title season episode kw in
  let text_width := measured_text_width self in
  let max_width := max_width self in
  let final := snd (create (self, fresh files)) in
  text_width =
    width (first_title_dims self) + width (first_index_dims self)
      + 20 * shown_fields self
  /\ max_width = WIDTH - 2 * kw_border_size kw
  /\ (max_width < text_width -> 0 < text_width <= 2 ^ 53 -> - 2 ^ 53 <= max_width ->
      exists q,
        truediv max_width text_width = Returned q
        /\ font_size_modifier (fst final) = q
        /\ (Qabs (q * inject_Z text_width - inject_Z max_width)
            <= Qabs (inject_Z max_width) * 2 ^ (-53))%Q
        /\ (q < 1)%Q
        /\ assignments (log (snd final)) = [q]
        /\ measurements (log (snd final))
           = [ (title_text_commands self, DimMax, DimSum);
               (index_text_commands self (first_title_dims self), DimSum, DimSum);
               (title_text_commands (set_font_size_modifier q self), DimMax, DimSum) ])
  /\ (text_width <= max_width ->
      font_size_modifier (fst final) = 1%Q
      /\ assignments (log (snd final)) = []
      /\ measurements (log (snd final))
         = [ (title_text_commands self, DimMax, DimSum);
             (index_text_commands self (first_title_dims self), DimSum, DimSum) ]).
Proof.
  intros Hfit self tw mw final. subst tw mw final.
  assert (Hfit' : fit_text self = true) by exact Hfit.
  split; [|split; [|split]].
  - unfold measured_text_width, text_width. now rewrite margin_shown_fields.
  - reflexivity.
  - intros Hlt [Hpos Hup] Hlow.
    destruct (truediv_exact_range (max_width self) (measured_text_width self))
      as (q & Hdiv & Herr & Hsign); [lia | lia |].
    exists q. split; [exact Hdiv|].
    rewrite (create_shrinking self (fresh files) q Hfit' Hlt Hdiv).
    destruct (submit_frame (set_font_size_modifier q self)
                (first_title_dims (set_font_size_modifier q self))
                {| fs := fs (fresh files);
                   log := log (fresh files)
                     ++ [ EvMeasure (title_text_commands self) DimMax DimSum;
                          EvMeasure (index_text_commands self (first_title_dims self))
                            DimSum DimSum;
                          EvSetFontSizeModifier q;
                          EvMeasure (title_text_commands (set_font_size_modifier q self))
                            DimMax DimSum ] |})
      as (Hcard & Hmeasure & Hassign & _).
    rewrite Hcard, Hmeasure, Hassign. cbn [log fresh app].
    split; [reflexivity|]. split; [exact Herr|]. split; [|split; reflexivity].
    destruct (Z_le_gt_dec 0 (max_width self)) as [Hnonneg|Hneg].
    + apply (truediv_below_one (max_width self) (measured_text_width self));
        [lia | lia | exact Hdiv].
    + eapply Qle_lt_trans; [apply Hsign; lia | reflexivity].
  - intros Hle.
    rewrite (create_fitting self (fresh files) Hfit' Hle).
    destruct (submit_frame self (first_title_dims self)
                {| fs := fs (fresh files);
                   log := log (fresh files)
                     ++ [ EvMeasure (title_text_commands self) DimMax DimSum;
                          EvMeasure (index_text_commands self (first_title_dims self))
                            DimSum DimSum ] |})
      as (Hcard & Hmeasure & Hassign & _).
    rewrite Hcard, Hmeasure, Hassign. repeat split; reflexivity.
Qed.

(** Whatever happens, [create] assigns the modifier at most once, only when
    fit_text is set, and the card ends with the assigned value or as it
    started. *)
Lemma create_assigns_at_most_once (self : t) (w : world) :
  let final := create (self, w) in
  (assignments (log (snd (snd final))) = assignments (log w)
   /\ fst (snd final) = self)
  \/ (exists q,
        fit_text self = true
        /\ max_width self < measured_text_width self
        /\ truediv (max_width self) (measured_text_width self) = Returned q
        /\ assignments (log (snd (snd final))) = assignments (log w) ++ [q]
        /\ fst (snd final) = set_font_size_modifier q self).
Proof.
  intros final. subst final.
  destruct (fit_text self) eqn:Hfit.
  - destruct (Z.lt_ge_cases (max_width self) (measured_text_width self)) as [Hlt|Hge].
    + destruct (truediv (max_width self) (measured_text_width self)) as [q|e] eqn:Hdiv.
      * right. exists q. rewrite (create_shrinking self w q Hfit Hlt Hdiv).
        destruct (submit_frame (set_font_size_modifier q self)
                    (first_title_dims (set_font_size_modifier q self))
                    {| fs := fs w;
                       log := log w
                         ++ [ EvMeasure (title_text_commands self) DimMax DimSum;
                              EvMeasure (index_text_commands self (first_title_dims self))
                                DimSum DimSum;
                              EvSetFontSizeModifier q;
                              EvMeasure (title_text_commands (set_font_size_modifier q self))
                                DimMax DimSum ] |})
          as (Hcard & _ & Hassign & _).
        rewrite Hcard, Hassign. cbn [log]. rewrite assignments_app.
        repeat split; auto.
      * left. rewrite (create_raising self w e Hfit Hlt Hdiv). cbn [fst snd log].
        rewrite assignments_app. cbn. now rewrite app_nil_r.
    + left. rewrite (create_fitting self w Hfit Hge).
      destruct (submit_frame self (first_title_dims self)
                  {| fs := fs w;
                     log := log w
                       ++ [ EvMeasure (title_text_commands self) DimMax DimSum;
                            EvMeasure (index_text_commands self (first_title_dims self))
                              DimSum DimSum ] |})
        as (Hcard & _ & Hassign & _).
      rewrite Hcard, Hassign. cbn [log]. rewrite assignments_app. cbn.
      now rewrite app_nil_r.
  - left. rewrite (create_unfitted self w Hfit).
    destruct (submit_frame self (first_title_dims self)
                {| fs := fs w;
                   log := log w ++ [ EvMeasure (title_text_commands self) DimMax DimSum ] |})
      as (Hcard & _ & Hassign & _).
    rewrite Hcard, Hassign. cbn [log]. rewrite assignments_app. cbn.
    now rewrite app_nil_r.
Qed.

(** The arithmetic of the text-fit step fails only in the shrinking
    branch, with what the division raises. *)
Lemma create_arithmetic_error (self : t) (w : world) (e : exn) :
  e = ZeroDivisionError \/ e = OverflowError ->
  fst (create (self, w)) = Raised e ->
  fit_text self = true
  /\ max_width self < measured_text_width self
  /\ truediv (max_width self) (measured_text_width self) = Raised e.
Proof.
  intros He Hraised.
  destruct (fit_text self) eqn:Hfit.
  - destruct (Z.lt_ge_cases (max_width self) (measured_text_width self)) as [Hlt|Hge].
    + destruct (truediv (max_width self) (measured_text_width self)) as [q|e'] eqn:Hdiv.
      * rewrite (create_shrinking self w q Hfit Hlt Hdiv) in Hraised.
        destruct (submit_frame (set_font_size_modifier q self)
                    (first_title_dims (set_font_size_modifier q self))
                    {| fs := fs w;
                       log := log w
                         ++ [ EvMeasure (title_text_commands self) DimMax DimSum;
                              EvMeasure (index_text_commands self (first_title_dims self))
                                DimSum DimSum;
                              EvSetFontSizeModifier q;
                              EvMeasure (title_text_commands (set_font_size_modifier q self))
                                DimMax DimSum ] |})
          as (_ & _ & _ & Hz & Ho & _).
        destruct He; subst e; contradiction.
      * rewrite (create_raising self w e' Hfit Hlt Hdiv) in Hraised.
        cbn [fst] in Hraised. injection Hraised as ->. auto.
    + rewrite (create_fitting self w Hfit Hge) in Hraised.
      destruct (submit_frame self (first_title_dims self)
                  {| fs := fs w;
                     log := log w
                       ++ [ EvMeasure (title_text_commands self) DimMax DimSum;
                            EvMeasure (index_text_commands self (first_title_dims self))
                              DimSum DimSum ] |})
        as (_ & _ & _ & Hz & Ho & _).
      destruct He; subst e; contradiction.
  - rewrite (create_unfitted self w Hfit) in Hraised.
    destruct (submit_frame self (first_title_dims self)
                {| fs := fs w;
                   log := log w ++ [ EvMeasure (title_text_commands self) DimMax DimSum ] |})
      as (_ & _ & _ & Hz & Ho & _).
    destruct He; subst e; contradiction.
Qed.

(** C2 (as amended): the modifier of a freshly constructed card is 1.0; one
    build assigns it at most once, and only in the text-fit step; and when
    twice the border size does not exceed the canvas width the division of
    the text-fit step cannot raise and the modifier the build leaves is
    neither negative nor above 1.0. *)
Theorem font_size_modifier_invariant
    (source card_file title season episode : string) (kw : kwargs)
    (files : gset string) :
  let self := init source card_file title season episode kw in
  let final := create (self, fresh files) in
  font_size_modifier self = 1%Q
  /\ (length (assignments (log (snd (snd final)))) <= 1)%nat
  /\ (kw_fit_text kw = false -> assignments (log (snd (snd final))) = [])
  /\ (2 * kw_border_size kw <= WIDTH ->
      fst final <> Raised ZeroDivisionError
      /\ fst final <> Raised OverflowError
      /\ (0 <= font_size_modifier (fst (snd final)))%Q
      /\ (font_size_modifier (fst (snd final)) <= 1)%Q).
Proof.
  intros self final.
  assert (Hone : font_size_modifier self = 1%Q) by reflexivity.
  pose proof (create_assigns_at_most_once self (fresh files)) as Hcases.
  cbv zeta in Hcases. fold final in Hcases.
  split; [exact Hone|]. split; [|split].
  - destruct Hcases as [[Hlog _]|(q & _ & _ & _ & Hlog & _)];
      rewrite Hlog; cbn; lia.
  - intros Hoff.
    destruct Hcases as [[Hlog _]|(q & Hfit & _)]; [exact Hlog|].
    change (fit_text self) with (kw_fit_text kw) in Hfit. congruence.
  - intros Hborder.
    assert (Hmax : 0 <= max_width self).
    { unfold max_width. change (border_size self) with (kw_border_size kw). lia. }
    assert (Hsafe : forall e, e = ZeroDivisionError \/ e = OverflowError ->
                              fst final <> Raised e).
    { intros e He Hraised.
      destruct (create_arithmetic_error self (fresh files) e He Hraised)
        as (_ & Hlt & Hdiv).
      destruct (truediv_unit (max_width self) (measured_text_width self))
        as (q & Hq & _); [lia|]. congruence. }
    split; [apply Hsafe; auto|]. split; [apply Hsafe; auto|].
    destruct Hcases as [[_ Hself]|(q & _ & Hlt & Hdiv & _ & Hself)]; rewrite Hself.
    + rewrite Hone. split; [discriminate | apply Qle_refl].
    + destruct (truediv_unit (max_width self) (measured_text_width self))
        as (q' & Hq' & Hq0 & Hq1); [lia|].
      assert (q' = q) by congruence. subst q'.
      cbn [font_size_modifier set_font_size_modifier]. auto.
Qed.

(** C4 (as amended): the title annotate and the index annotates add the
    same font_vertical_shift, to different base offsets: the title text is
    annotated at 820 + font_vertical_shift, every index text at
    810 + font_vertical_shift, ten less. *)
Theorem vertical_offsets (self : t) (title_text_dimensions : Dimensions) :
  let shift := font_vertical_shift self in
  title_vertical_shift self = 820 + shift
  /\ y_position self = 810 + shift
  /\ title_vertical_shift self - y_position self = 10
  /\ (title_text_commands self = []
      \/ last (title_text_commands self)
         = Some ("-annotate +0+" +:+ str_int (820 + shift) +:+ " "
                   +:+ dq +:+ title_text self +:+ dq))
  /\ (forall instruction,
        instruction ∈ season_text_command self title_text_dimensions
                        ++ episode_text_command self title_text_dimensions ->
        instruction = "-gravity east" \/ instruction = "-gravity west"
        \/ exists horizontal text,
             instruction = "-annotate " +:+ horizontal +:+ plus_int (810 + shift)
                             +:+ " " +:+ dq +:+ text +:+ dq).
Proof.
  intros shift. subst shift.
  split; [reflexivity|]. split; [reflexivity|].
  split; [unfold title_vertical_shift, y_position; lia|]. split.
  - unfold title_text_commands.
    destruct (String.length (title_text self) =? 0)%nat; [left|right]; reflexivity.
  - intros instruction Hin.
    unfold season_text_command, episode_text_command in Hin.
    destruct (hide_season_text self), (hide_episode_text self),
      (String.eqb (episode_text_position self) "compact");
      cbn [negb app] in Hin;
      repeat (apply elem_of_cons in Hin as [->|Hin]);
      try (apply elem_of_nil in Hin; contradiction);
      try (left; reflexivity); try (right; left; reflexivity);
      right; right.
    all: first
      [ exists (float_plus (x_position title_text_dimensions)), (season_text self);
        reflexivity
      | exists (float_plus (x_position title_text_dimensions)), (episode_text self);
        reflexivity
      | exists ("+" +:+ str_int (border_size self)), (season_text self); reflexivity
      | exists ("+" +:+ str_int (border_size self)), (episode_text self); reflexivity ].
Qed.

(** C6: in compact mode each index text that is shown is annotated at the
    horizontal offset (canvas_width + w) / 2 + 20, w the measured title
    width (zero included), the season text after an east gravity and the
    episode text after a west gravity; a hidden field contributes no
    instruction, and the group is empty when both are hidden. *)
Theorem compact_index_text (self : t) (title_text_dimensions : Dimensions) :
  episode_text_position self = "compact" ->
  let offset := (inject_Z (WIDTH + width title_text_dimensions) / 2 + 20)%Q in
  let annotate text :=
    "-annotate " +:+ float_plus offset +:+ plus_int (810 + font_vertical_shift self)
      +:+ " " +:+ dq +:+ text +:+ dq in
  let season :=
    if hide_season_text self then []
    else ["-gravity east"; annotate (season_text self)] in
  let episode :=
    if hide_episode_text self then []
    else ["-gravity west"; annotate (episode_text self)] in
  index_text_commands self title_text_dimensions =
    if hide_season_text self && hide_episode_text self then []
    else
      [ "-font " +:+ dq +:+ resolve EPISODE_TEXT_FONT +:+ dq;
        "-fill " +:+ dq +:+ episode_text_color self +:+ dq;
        "-pointsize " +:+ float_str (70 * font_size_modifier self)%Q;
        "-kerning 1";
        "-interword-spacing 15" ] ++ season ++ episode.
Proof.
  intros Hcompact offset annotate season episode.
  subst offset annotate season episode.
  unfold index_text_commands, season_text_command, episode_text_command.
  rewrite Hcompact.
  destruct (hide_season_text self), (hide_episode_text self); reflexivity.
Qed.

(** C7: the border group is empty exactly when hide_border is set;
    otherwise it is the fill with border_color followed by the left, top and
    right strips, drawn from the card's own border_size, and nothing else:
    no strip lies along the bottom edge. *)
Theorem border_group (self : t) :
  let rectangle (x1 y1 x2 y2 : Z) :=
    "-draw " +:+ dq
      +:+ ("rectangle "
             +:+ (float_0f (inject_Z x1) +:+ "," +:+ float_0f (inject_Z y1))
             +:+ ","
             +:+ (float_0f (inject_Z x2) +:+ "," +:+ float_0f (inject_Z y2)))
      +:+ dq in
  (border_commands self = [] <-> hide_border self = true)
  /\ border_commands self =
       if hide_border self then []
       else
         [ "-fill " +:+ dq +:+ border_color self +:+ dq;
           rectangle 0 0 (border_size self) HEIGHT;
           rectangle 0 0 WIDTH (border_size self);
           rectangle (WIDTH - border_size self) 0 WIDTH HEIGHT ].
Proof.
  intros rectangle. subst rectangle. unfold border_commands.
  destruct (hide_border self); split; try reflexivity; split; intros Heq;
    try reflexivity; discriminate.
Qed.

(** C8: when [create] returns it has made exactly one render-engine
    invocation, and the command it submitted is, joined by single spaces
    and in this order: the source, the resize and style group, the resize
    to the interior width, the extent, the border group, the text-box group,
    the title group, the index group placed with the final title
    dimensions, the output resize group and the output path. The arguments
    of the invocation are what shlex.split makes of that command line. *)
Theorem command_order (self self' : t) (w w' : world) :
  create (self, w) = (Returned tt, (self', w')) ->
  let title_text_dimensions := measure_text (title_text_commands self') DimMax DimSum in
  exists argv,
    invocations (log w') = invocations (log w) ++ [argv]
    /\ command_split
         (ImageMagickInterface.command_line image_magick
            (String.concat " "
               ([ "convert " +:+ dq +:+ resolve (source_file self') +:+ dq ]
                ++ resize_and_style (blur self') (grayscale self')
                ++ [ "-resize " +:+ str_int (WIDTH - 2 * border_size self') +:+ "x" ]
                ++ [ "-extent " +:+ TITLE_CARD_SIZE ]
                ++ border_commands self'
                ++ bottom_border_commands self'
                ++ title_text_commands self'
                ++ index_text_commands self' title_text_dimensions
                ++ resize_output
                ++ [ dq +:+ resolve (output_file self') +:+ dq ])))
       = Some argv.
Proof.
  intros Hrun dims. subst dims.
  assert (Hsubmit : forall card events,
             submit card (first_title_dims card) {| fs := fs w; log := log w ++ events |}
               = (Returned tt, (self', w')) ->
             invocations events = [] ->
             exists argv,
               invocations (log w') = invocations (log w) ++ [argv]
               /\ command_split
                    (ImageMagickInterface.command_line image_magick
                       (command self' (first_title_dims self'))) = Some argv).
  { intros card events Heq Hnone.
    destruct (submit_cases card (first_title_dims card)
                {| fs := fs w; log := log w ++ events |})
      as [(argv & finished & files & Hsplit & _ & Hres)|(e & _ & Hres)];
      rewrite Hres in Heq; [|discriminate].
    injection Heq as <- <-. exists argv. cbn [log].
    rewrite !invocations_app, Hnone, app_nil_r. auto. }
  unfold command in Hsubmit. rewrite join_concat in Hsubmit.
  destruct (fit_text self) eqn:Hfit.
  - destruct (Z.lt_ge_cases (max_width self) (measured_text_width self)) as [Hlt|Hge].
    + destruct (truediv (max_width self) (measured_text_width self)) as [q|e] eqn:Hdiv.
      * rewrite (create_shrinking self w q Hfit Hlt Hdiv) in Hrun.
        exact (Hsubmit _ _ Hrun eq_refl).
      * rewrite (create_raising self w e Hfit Hlt Hdiv) in Hrun. discriminate.
    + rewrite (create_fitting self w Hfit Hge) in Hrun.
      exact (Hsubmit _ _ Hrun eq_refl).
  - rewrite (create_unfitted self w Hfit) in Hrun.
    exact (Hsubmit _ _ Hrun eq_refl).
Qed.

End CardProperties.

(** ** Determinism of the build *)

Section Determinism.
Context {fmt : PyFloatFormat} {os : OperatingSystem} {base : BaseCardType}.
Import MarvelTitleCard.

(** Replacing the measurement leaves everything else of the card type as
    it was. *)
Lemma first_title_dims_with (m : list string -> dim_mode -> dim_mode -> Dimensions)
    (self : t) :
  first_title_dims (base := with_measure base m) self
  = m (title_text_commands self) DimMax DimSum.
Proof. reflexivity. Qed.

Lemma first_index_dims_with (m : list string -> dim_mode -> dim_mode -> Dimensions)
    (self : t) :
  first_index_dims (base := with_measure base m) self
  = m (index_text_commands self (m (title_text_commands self) DimMax DimSum))
      DimSum DimSum.
Proof. reflexivity. Qed.

Lemma measured_text_width_with (m : list string -> dim_mode -> dim_mode -> Dimensions)
    (self : t) :
  measured_text_width (base := with_measure base m) self
  = text_width self
      (m (title_text_commands self) DimMax DimSum)
      (m (index_text_commands self (m (title_text_commands self) DimMax DimSum))
         DimSum DimSum).
Proof. reflexivity. Qed.

(** Two measurements that agree on the first two queries lead to the same
    text width, hence to the same branch and the same modifier. *)
Lemma measured_text_width_agree
    (m1 m2 : list string -> dim_mode -> dim_mode -> Dimensions) (self : t) :
  m1 (title_text_commands self) DimMax DimSum
    = m2 (title_text_commands self) DimMax DimSum ->
  m1 (index_text_commands self (m1 (title_text_commands self) DimMax DimSum))
     DimSum DimSum
    = m2 (index_text_commands self (m1 (title_text_commands self) DimMax DimSum))
        DimSum DimSum ->
  measured_text_width (base := with_measure base m2) self
  = measured_text_width (base := with_measure base m1) self.
Proof.
  intros Htitle Hindex. rewrite !measured_text_width_with.
  rewrite <- Htitle, <- Hindex. reflexivity.
Qed.

(** C9: the build is a function of the configuration and of the measured
    dimensions. Two runs on the same card whose measurements give the same
    answers to the queries the first run makes end in the same outcome, the
    same card and the same log, instruction for instruction. *)
Theorem build_deterministic
    (m1 m2 : list string -> dim_mode -> dim_mode -> Dimensions)
    (self : t) (files : gset string) :
  (forall text_command w h,
     (text_command, w, h)
       ∈ measurements
           (log (snd (snd (create (base := with_measure base m1) (self, fresh files))))) ->
     m1 text_command w h = m2 text_command w h) ->
  create (base := with_measure base m2) (self, fresh files)
  = create (base := with_measure base m1) (self, fresh files).
Proof.
  intros Hagree.
  destruct (fit_text self) eqn:Hfit.
  - destruct (Z.lt_ge_cases (max_width (base := with_measure base m1) self)
                (measured_text_width (base := with_measure base m1) self))
      as [Hlt|Hge].
    + destruct (truediv (max_width (base := with_measure base m1) self)
                  (measured_text_width (base := with_measure base m1) self))
        as [q|e] eqn:Hdiv.
      * rewrite (create_shrinking (base := with_measure base m1) self _ q Hfit Hlt Hdiv)
          in Hagree |- *.
        destruct (submit_frame (base := with_measure base m1)
                    (set_font_size_modifier q self)
                    (first_title_dims (base := with_measure base m1)
                       (set_font_size_modifier q self))
                    {| fs := fs (fresh files);
                       log := log (fresh files)
                         ++ [ EvMeasure (title_text_commands self) DimMax DimSum;
                              EvMeasure
                                (index_text_commands (base := with_measure base m1) self
                                   (first_title_dims (base := with_measure base m1) self))
                                DimSum DimSum;
                              EvSetFontSizeModifier q;
                              EvMeasure (title_text_commands (set_font_size_modifier q self))
                                DimMax DimSum ] |})
          as (_ & Hmeasure & _).
        rewrite Hmeasure in Hagree.
        cbn [snd log fresh app measurements omap] in Hagree.
        pose proof (Hagree _ _ _ (list_elem_of_here _ _)) as Htitle.
        pose proof (Hagree _ _ _ (list_elem_of_further _ _ _ (list_elem_of_here _ _)))
          as Hindex.
        pose proof (Hagree _ _ _
                      (list_elem_of_further _ _ _
                         (list_elem_of_further _ _ _ (list_elem_of_here _ _))))
          as Hagain.
        rewrite first_title_dims_with in Hindex.
        pose proof (measured_text_width_agree m1 m2 self Htitle Hindex) as Hwidth.
        rewrite (create_shrinking (base := with_measure base m2) self _ q Hfit)
          by (rewrite Hwidth; assumption).
        rewrite !first_title_dims_with, <- Htitle, <- Hagain. reflexivity.
      * rewrite (create_raising (base := with_measure base m1) self _ e Hfit Hlt Hdiv)
          in Hagree |- *.
        cbn [snd log fresh app measurements omap] in Hagree.
        pose proof (Hagree _ _ _ (list_elem_of_here _ _)) as Htitle.
        pose proof (Hagree _ _ _ (list_elem_of_further _ _ _ (list_elem_of_here _ _)))
          as Hindex.
        rewrite first_title_dims_with in Hindex.
        pose proof (measured_text_width_agree m1 m2 self Htitle Hindex) as Hwidth.
        rewrite (create_raising (base := with_measure base m2) self _ e Hfit)
          by (rewrite Hwidth; assumption).
        rewrite !first_title_dims_with, <- Htitle. reflexivity.
    + rewrite (create_fitting (base := with_measure base m1) self _ Hfit Hge)
        in Hagree |- *.
      destruct (submit_frame (base := with_measure base m1) self
                  (first_title_dims (base := with_measure base m1) self)
                  {| fs := fs (fresh files);
                     log := log (fresh files)
                       ++ [ EvMeasure (title_text_commands self) DimMax DimSum;
                            EvMeasure
                              (index_text_commands (base := with_measure base m1) self
                                 (first_title_dims (base := with_measure base m1) self))
                              DimSum DimSum ] |})
        as (_ & Hmeasure & _).
      rewrite Hmeasure in Hagree.
      cbn [snd log fresh app measurements omap] in Hagree.
      pose proof (Hagree _ _ _ (list_elem_of_here _ _)) as Htitle.
      pose proof (Hagree _ _ _ (list_elem_of_further _ _ _ (list_elem_of_here _ _)))
        as Hindex.
      rewrite first_title_dims_with in Hindex.
      pose proof (measured_text_width_agree m1 m2 self Htitle Hindex) as Hwidth.
      rewrite (create_fitting (base := with_measure base m2) self _ Hfit)
        by (rewrite Hwidth; assumption).
      rewrite !first_title_dims_with, <- Htitle. reflexivity.
  - rewrite (create_unfitted (base := with_measure base m1) self _ Hfit)
      in Hagree |- *.
    destruct (submit_frame (base := with_measure base m1) self
                (first_title_dims (base := with_measure base m1) self)
                {| fs := fs (fresh files);
                   log := log (fresh files)
                     ++ [ EvMeasure (title_text_commands self) DimMax DimSum ] |})
      as (_ & Hmeasure & _).
    rewrite Hmeasure in Hagree.
    cbn [snd log fresh app measurements omap] in Hagree.
    pose proof (Hagree _ _ _ (list_elem_of_here _ _)) as Htitle.
    rewrite (create_unfitted (base := with_measure base m2) self _ Hfit).
    rewrite !first_title_dims_with, <- Htitle. reflexivity.
Qed.

End Determinism.

(** ** The genre card and the render engine *)

Section GenreProperties.
Context {os : OperatingSystem} {maker : ImageMaker}.
Import GenreMaker.

(** A step that runs one command and returns a fixed value, followed by
    the rest of the function. *)
Lemma run_then {A B : Type} (iface : ImageMagickInterface.t) (command : string)
    (a : A) (k : A -> M world B) (w : world) :
  bind (bind (ImageMagickInterface.run iface command) (fun _ => ret a)) k w
  = match ImageMagickInterface.run iface command w with
    | (Returned _, w') => k a w'
    | (Raised e, w') => (Raised e, w')
    end.
Proof.
  unfold bind, ret.
  destruct (ImageMagickInterface.run iface command w) as [[streams|e] w'];
    reflexivity.
Qed.

(** The two ways [run] can end: the command was split and the process
    ran, in which case the captured streams come back as they are, or
    splitting or starting raised, in which case nothing happened. *)
Lemma run_cases (iface : ImageMagickInterface.t) (command : string) (w : world) :
  (exists argv finished files,
     command_split (ImageMagickInterface.command_line iface command) = Some argv
     /\ popen argv (fs w) = inr (finished, files)
     /\ ImageMagickInterface.run iface command w
        = (Returned (stdout finished, stderr finished),
           {| fs := files; log := log w ++ [EvPopen argv] |}))
  \/ (exists e,
        (e = ValueError \/ e = OSError)
        /\ ImageMagickInterface.run iface command w = (Raised e, w)).
Proof.
  unfold ImageMagickInterface.run.
  destruct (command_split _) as [argv|].
  - destruct (popen argv (fs w)) as [e|[finished files]] eqn:Hpopen.
    + right. exists (exn_of_popen e). split; [destruct e; auto | reflexivity].
    + left. exists argv, finished, files. auto.
  - right. exists ValueError. auto.
Qed.

(** What [run] raises, case by case: ValueError when the command cannot
    be split or Popen refuses an argument, OSError when the program cannot
    be executed. *)
Lemma run_raises (iface : ImageMagickInterface.t) (command : string) (w : world) :
  (command_split (ImageMagickInterface.command_line iface command) = None ->
   ImageMagickInterface.run iface command w = (Raised ValueError, w))
  /\ (forall argv,
        command_split (ImageMagickInterface.command_line iface command) = Some argv ->
        (popen argv (fs w) = inl CannotExecute ->
         ImageMagickInterface.run iface command w = (Raised OSError, w))
        /\ (popen argv (fs w) = inl InvalidArgument ->
            ImageMagickInterface.run iface command w = (Raised ValueError, w))).
Proof.
  unfold ImageMagickInterface.run. split.
  - now intros ->.
  - intros argv ->. split; now intros ->.
Qed.


(** With the source in place [create] is the chain of its three steps
    and the clean-up. *)
Lemma genre_create_present (self : t) (w : world) :
  source self ∈ fs w ->
  create self w =
    bind (resize_source self)
      (fun resized_source =>
         bind (add_gradient self resized_source)
           (fun source_with_gradient =>
              bind (add_text_and_border self source_with_gradient)
                (fun _ =>
                   ImageMagickInterface.delete_intermediate_images
                     [resized_source; source_with_gradient]))) w.
Proof.
  intros Hpresent. unfold create at 1. unfold bind at 1, path_exists.
  rewrite bool_decide_eq_true_2 by exact Hpresent. reflexivity.
Qed.

(** With the source in place, either the three commands were split and
    run one after the other and the two intermediate images were unlinked,
    or one of the three raised ValueError or OSError and [create] stopped
    there, with fewer than three invocations and no unlink. *)
Lemma genre_create_run (self : t) (w : world) :
  source self ∈ fs w ->
  (exists a1 a2 a3 r1 r2 r3 files1 files2 files3,
     command_split (ImageMagickInterface.command_line maker_image_magick
                      (resize_command self)) = Some a1
     /\ command_split (ImageMagickInterface.command_line maker_image_magick
                         gradient_command) = Some a2
     /\ command_split (ImageMagickInterface.command_line maker_image_magick
                         (text_command self)) = Some a3
     /\ popen a1 (fs w) = inr (r1, files1)
     /\ popen a2 files1 = inr (r2, files2)
     /\ popen a3 files2 = inr (r3, files3)
     /\ create self w =
          (Returned tt,
           {| fs := files3 ∖ {[RESIZED_SOURCE]} ∖ {[SOURCE_WITH_GRADIENT]};
              log := log w
                ++ [ EvPopen a1; EvPopen a2; EvPopen a3;
                     EvUnlink RESIZED_SOURCE; EvUnlink SOURCE_WITH_GRADIENT ] |}))
  \/ (exists e ran files,
        (e = ValueError \/ e = OSError)
        /\ (length ran < 3)%nat
        /\ create self w
           = (Raised e, {| fs := files; log := log w ++ map EvPopen ran |})).
Proof.
  intros Hpresent. rewrite (genre_create_present self w Hpresent).
  unfold resize_source. cbv zeta. rewrite join_concat.
  fold (resize_command self). rewrite run_then.
  destruct (run_cases maker_image_magick (resize_command self) w)
    as [(a1 & r1 & files1 & Hs1 & Hp1 & Hrun1)|(e & He & Hrun1)];
    rewrite Hrun1.
  2:{ right. exists e, [], (fs w). split; [exact He|]. split; [cbn; lia|].
      cbn [map]. rewrite app_nil_r. now destruct w. }
  unfold add_gradient. cbv zeta. rewrite join_concat.
  fold gradient_command. rewrite run_then.
  destruct (run_cases maker_image_magick gradient_command
              {| fs := files1; log := log w ++ [EvPopen a1] |})
    as [(a2 & r2 & files2 & Hs2 & Hp2 & Hrun2)|(e & He & Hrun2)];
    rewrite Hrun2.
  2:{ right. exists e, [a1], files1. split; [exact He|]. split; [cbn; lia|].
      reflexivity. }
  unfold add_text_and_border. cbv zeta. rewrite join_concat.
  fold (text_command self). rewrite run_then. cbn [fs log] in *.
  destruct (run_cases maker_image_magick (text_command self)
              {| fs := files2; log := (log w ++ [EvPopen a1]) ++ [EvPopen a2] |})
    as [(a3 & r3 & files3 & Hs3 & Hp3 & Hrun3)|(e & He & Hrun3)];
    rewrite Hrun3.
  2:{ right. exists e, [a1; a2], files2. split; [exact He|]. split; [cbn; lia|].
      cbn [map]. now rewrite <- app_assoc. }
  left. exists a1, a2, a3, r1, r2, r3, files1, files2, files3.
  cbn [fs] in *. repeat (split; [assumption|]).
  cbv [ImageMagickInterface.delete_intermediate_images bind
       ImageMagickInterface.unlink ret].
  cbn [fs log]. rewrite <- !app_assoc. reflexivity.
Qed.


End GenreProperties.

(** ** The extras dictionary *)

Section Extras.
Import MarvelTitleCard.

(** One conditional overwrite keeps the keys and every other entry. *)
Lemma overwrite_present_lookup (extras : gmap string pyvalue) (key other : string)
    (value : pyvalue) :
  other <> key ->
  (if bool_decide (is_Some (extras !! key)) then <[key := value]> extras else extras)
    !! other = extras !! other.
Proof.
  intros Hne. case_bool_decide; [|reflexivity].
  now rewrite lookup_insert_ne by congruence.
Qed.

Lemma overwrite_present_dom (extras : gmap string pyvalue) (key : string)
    (value : pyvalue) :
  dom (if bool_decide (is_Some (extras !! key)) then <[key := value]> extras else extras)
  = dom extras.
Proof.
  case_bool_decide as Hin; [|reflexivity].
  rewrite dom_insert_L.
  apply subseteq_union_1_L, elem_of_subseteq_singleton, elem_of_dom. exact Hin.
Qed.

(** C10: modify_extras keeps the set of keys; an entry can change only
    under the key episode_text_color or border_color, only when custom_font
    is false and only when that key was already there; every other entry is
    left as it was; and the custom_season_titles flag has no influence. *)
Theorem modify_extras_frame (extras : gmap string pyvalue)
    (custom_font custom_season_titles : bool) :
  let result := modify_extras extras custom_font custom_season_titles in
  dom result = dom extras
  /\ (forall key,
        key <> "episode_text_color" -> key <> "border_color" ->
        result !! key = extras !! key)
  /\ (forall key,
        result !! key <> extras !! key ->
        custom_font = false /\ is_Some (extras !! key)
        /\ (key = "episode_text_color" \/ key = "border_color"))
  /\ (forall key, extras !! key = None -> result !! key = None)
  /\ (forall flag, modify_extras extras custom_font flag = result).
Proof.
  intros result. subst result.
  assert (Hdom : dom (modify_extras extras custom_font custom_season_titles)
                 = dom extras).
  { unfold modify_extras. destruct custom_font; cbn [negb]; [reflexivity|].
    now rewrite !overwrite_present_dom. }
  assert (Hframe : forall key,
             key <> "episode_text_color" -> key <> "border_color" ->
             modify_extras extras custom_font custom_season_titles !! key
             = extras !! key).
  { intros key Hep Hborder. unfold modify_extras.
    destruct custom_font; cbn [negb]; [reflexivity|].
    now rewrite !overwrite_present_lookup by assumption. }
  split; [exact Hdom|]. split; [exact Hframe|]. split; [|split].
  - intros key Hchanged.
    destruct custom_font; [now contradiction Hchanged|].
    split; [reflexivity|]. split.
    + apply elem_of_dom. rewrite <- Hdom. apply elem_of_dom.
      destruct (modify_extras extras false custom_season_titles !! key) eqn:Hnew;
        [eauto|].
      destruct (extras !! key) eqn:Hold; [|contradiction].
      assert (Hin : key ∈ dom extras) by (apply elem_of_dom; eauto).
      rewrite <- Hdom in Hin. apply elem_of_dom in Hin as [? Hin]. congruence.
    + destruct (decide (key = "episode_text_color")) as [|Hep]; [now left|].
      destruct (decide (key = "border_color")) as [|Hborder]; [now right|].
      contradiction Hchanged. now apply Hframe.
  - intros key Hnone.
    apply not_elem_of_dom. rewrite Hdom. now apply not_elem_of_dom.
  - intros flag. reflexivity.
Qed.

End Extras.

(** ** The division on concrete operands *)

(** [truediv] gives the quotient the Standard Library's IEEE 754 division
    gives in binary64, on the operands of the examples below and on some
    others, among them a tie and the two ends of the unit interval. *)
Example truediv_reference :
  forallb
    (fun operands : Z * Z =>
       match truediv (fst operands) (snd operands),
             reference_quotient (fst operands) (snd operands) with
       | Returned q, Some r => Qeq_bool q r
       | _, _ => false
       end)
    [ (3090, 3440); (3090, 4170); (-800, 140); (1, 3); (2, 3); (1, 10);
      (-2, 3200); (3199, 3200); (7, 1); (0, 5); (4503599627370497, 2);
      (9007199254740991, 9007199254740992); (1, 9007199254740992) ]
  = true.
Proof. vm_compute. reflexivity. Qed.

(** The three quotients of the examples below, as Python prints their
    exact values with [float.as_integer_ratio]. *)
Example truediv_values :
  (exists q, truediv 3090 3440 = Returned q
             /\ (q == 505673068625539 # 562949953421312)%Q)
  /\ (exists q, truediv 3090 4170 = Returned q
                /\ (q == 6674399447757713 # 9007199254740992)%Q)
  /\ (exists q, truediv (-800) 140 = Returned q
                /\ (q == -6433713753386423 # 1125899906842624)%Q).
Proof.
  repeat split; eexists; (split; [vm_compute; reflexivity | vm_compute; reflexivity]).
Qed.

(** Operands beyond 2^53, where the quotient falls half way between two
    binary64 numbers and goes to the even one; quotients below the
    smallest normal number; and a quotient too large for a float. Python
    answers the same on each. *)
Example truediv_ties_and_ranges :
  (exists q, truediv (2 ^ 53 + 1) 1 = Returned q /\ (q == inject_Z (2 ^ 53))%Q)
  /\ (exists q, truediv (2 ^ 53 + 3) 1 = Returned q
                /\ (q == inject_Z (2 ^ 53 + 4))%Q)
  /\ (exists q, truediv (2 ^ 54 + 2) 2 = Returned q /\ (q == inject_Z (2 ^ 53))%Q)
  /\ (exists q, truediv 3 (2 ^ 1075) = Returned q
                /\ (q == 2 / inject_Z (2 ^ 1074))%Q)
  /\ (exists q, truediv 5 (2 ^ 1076) = Returned q
                /\ (q == 1 / inject_Z (2 ^ 1074))%Q)
  /\ (exists q, truediv 1 (2 ^ 1075) = Returned q /\ (q == 0)%Q)
  /\ (exists q, truediv (2 ^ 1100) (2 ^ 1000) = Returned q
                /\ (q == inject_Z (2 ^ 100))%Q)
  /\ truediv (2 ^ 1100) 7 = Raised OverflowError
  /\ truediv 7 0 = Raised ZeroDivisionError.
Proof.
  repeat split;
    try (eexists; split; [vm_compute; reflexivity | vm_compute; reflexivity]);
    vm_compute; reflexivity.
Qed.

(** ** Splitting on concrete command lines *)

(** [shlex_split] on quotations, escapes and the two ways to fail, with
    the answers of Python's shlex.split. *)
Example shlex_split_examples :
  shlex_split "convert a.jpg  -resize 10x"
    = Some ["convert"; "a.jpg"; "-resize"; "10x"]
  /\ shlex_split ("a " +:+ dq +:+ "b c" +:+ dq +:+ " d") = Some ["a"; "b c"; "d"]
  /\ shlex_split ("a 'b " +:+ dq +:+ "c' d") = Some ["a"; "b " +:+ dq +:+ "c"; "d"]
  /\ shlex_split ("say " +:+ dq +:+ "a" +:+ backslash +:+ dq +:+ "b" +:+ dq +:+ " end")
     = Some ["say"; "a" +:+ dq +:+ "b"; "end"]
  /\ shlex_split (dq +:+ "a" +:+ backslash +:+ "b" +:+ dq)
     = Some ["a" +:+ backslash +:+ "b"]
  /\ shlex_split (dq +:+ "a" +:+ backslash +:+ backslash +:+ dq +:+ " b")
     = Some ["a" +:+ backslash; "b"]
  /\ shlex_split ("a" +:+ backslash +:+ " b c") = Some ["a b"; "c"]
  /\ shlex_split ("x " +:+ backslash +:+ dq +:+ "y") = Some ["x"; dq +:+ "y"]
  /\ shlex_split ("'a" +:+ backslash +:+ "'b") = Some ["a" +:+ backslash +:+ "b"]
  /\ shlex_split ("ab" +:+ dq +:+ "cd" +:+ dq +:+ "ef") = Some ["abcdef"]
  /\ shlex_split (dq +:+ dq +:+ " x") = Some [EmptyString; "x"]
  /\ shlex_split "'it''s'" = Some ["its"]
  /\ shlex_split (dq +:+ "open") = None
  /\ shlex_split ("tail" +:+ backslash) = None.
Proof. vm_compute. repeat split; reflexivity. Qed.

(** ** The text-fit step on concrete cards *)

(** The worked example: 3000 + 400 + 40 = 3440 exceeds 3200 - 110 = 3090, the
    modifier becomes the binary64 quotient of 3090 by 3440, it is assigned
    once and the title is measured a third time; and a card whose text fits
    keeps 1.0 after two measurements. *)
Lemma text_fit_resolution_witness :
  (exists q,
     truediv 3090 3440 = Returned q
     /\ MarvelTitleCard.font_size_modifier (fst (snd (build wide_canvas wide_card ∅))) = q
     /\ (Qabs (q * inject_Z 3440 - inject_Z 3090) <= Qabs (inject_Z 3090) * 2 ^ (-53))%Q
     /\ (q < 1)%Q
     /\ assignments (log (snd (snd (build wide_canvas wide_card ∅)))) = [q]
     /\ length (measurements (log (snd (snd (build wide_canvas wide_card ∅))))) = 3%nat)
  /\ MarvelTitleCard.font_size_modifier (fst (snd (build narrow_canvas narrow_card ∅))) = 1%Q
  /\ assignments (log (snd (snd (build narrow_canvas narrow_card ∅)))) = []
  /\ length (measurements (log (snd (snd (build narrow_canvas narrow_card ∅))))) = 2%nat.
Proof.
  split.
  - destruct (text_fit_resolution (fmt := exact_format) (os := quiet_os)
                (base := wide_canvas) "source.jpg" "card.jpg" "A VERY LONG TITLE"
                "SEASON 1" "EPISODE 2"
                (custom (os := quiet_os) (base := wide_canvas) 55 false false "fixed" true)
                ∅ eq_refl) as (_ & _ & Hshrink & _).
    destruct Hshrink as (q & Hdiv & Hmod & Herr & Hlt & Hassign & Hmeasure).
    + vm_compute. reflexivity.
    + vm_compute. split; [reflexivity | discriminate].
    + vm_compute. discriminate.
    + exists q. split; [exact Hdiv|]. split; [exact Hmod|].
      split; [exact Herr|]. split; [exact Hlt|]. split; [exact Hassign|].
      exact (f_equal (@length _) Hmeasure).
  - destruct (text_fit_resolution (fmt := exact_format) (os := quiet_os)
                (base := narrow_canvas) "source.jpg" "card.jpg" "TITLE"
                "SEASON 1" "EPISODE 2"
                (custom (os := quiet_os) (base := narrow_canvas) 55 false false "fixed" true)
                ∅ eq_refl) as (_ & _ & _ & Hfits).
    destruct Hfits as (Hmod & Hassign & Hmeasure);
      [vm_compute; discriminate |].
    split; [exact Hmod|]. split; [exact Hassign|].
    exact (f_equal (@length _) Hmeasure).
Defined.

(** C1, counterexample. A card with no text and a border of 1601 has
    text_width = 0 and max_width = -2: the text-fit step takes the shrinking
    branch and the division raises, so no modifier is set. And on a card
    whose text measures 4170 against an interior width of 3090 the modifier
    is set to the binary64 quotient q of 3090 by 4170, which is not the
    exact quotient: q x 4170 is below 3090, and so is the product as
    binary64 computes it. *)
Lemma text_fit_undefined_or_inexact :
  (MarvelTitleCard.fit_text blank_card = true
   /\ measured_text_width (fmt := exact_format) (os := quiet_os) (base := blank_canvas)
        blank_card = 0
   /\ MarvelTitleCard.max_width (base := blank_canvas) blank_card = -2
   /\ fst (build blank_canvas blank_card ∅) = Raised ZeroDivisionError
   /\ assignments (log (snd (snd (build blank_canvas blank_card ∅)))) = []
   /\ invocations (log (snd (snd (build blank_canvas blank_card ∅)))) = [])
  /\ (MarvelTitleCard.fit_text long_card = true
      /\ measured_text_width (fmt := exact_format) (os := quiet_os) (base := long_canvas)
           long_card = 4170
      /\ MarvelTitleCard.max_width (base := long_canvas) long_card = 3090
      /\ fst (build long_canvas long_card ∅) = Returned tt
      /\ exists q r,
           MarvelTitleCard.font_size_modifier (fst (snd (build long_canvas long_card ∅))) = q
           /\ ~ (q * inject_Z 4170 == inject_Z 3090)%Q
           /\ round_binary64 (q * inject_Z 4170) = Some r
           /\ (r < inject_Z 3090)%Q).
Proof.
  split.
  - vm_compute. repeat split; reflexivity.
  - split; [reflexivity|]. split; [vm_compute; reflexivity|].
    split; [vm_compute; reflexivity|]. split; [vm_compute; reflexivity|].
    eexists. eexists. split; [vm_compute; reflexivity|].
    split; [vm_compute; discriminate|].
    split; [vm_compute; reflexivity|]. vm_compute. reflexivity.
Qed.

(** The worked example again: border 55 on the 3200 canvas. *)
Lemma font_size_modifier_invariant_witness :
  fst (build wide_canvas wide_card ∅) <> Raised ZeroDivisionError
  /\ fst (build wide_canvas wide_card ∅) <> Raised OverflowError
  /\ (0 <= MarvelTitleCard.font_size_modifier (fst (snd (build wide_canvas wide_card ∅))))%Q
  /\ (MarvelTitleCard.font_size_modifier (fst (snd (build wide_canvas wide_card ∅))) <= 1)%Q.
Proof.
  destruct (font_size_modifier_invariant (fmt := exact_format) (os := quiet_os)
              (base := wide_canvas) "source.jpg" "card.jpg" "A VERY LONG TITLE"
              "SEASON 1" "EPISODE 2"
              (custom (os := quiet_os) (base := wide_canvas) 55 false false "fixed" true)
              ∅) as (_ & _ & _ & Hrange).
  apply Hrange. vm_compute. discriminate.
Defined.

(** C2, counterexample: with a border of 2000 the interior width is
    3200 - 4000 = -800; a title measured 100 wide gives text_width 140, the
    shrinking branch is taken and the modifier becomes the binary64
    quotient of -800 by 140, which is negative. *)
Lemma font_size_modifier_negative :
  0 < MarvelTitleCard.border_size thick_card
  /\ fst (build thick_canvas thick_card ∅) = Returned tt
  /\ truediv (-800) 140
     = Returned (MarvelTitleCard.font_size_modifier
                   (fst (snd (build thick_canvas thick_card ∅))))
  /\ (MarvelTitleCard.font_size_modifier (fst (snd (build thick_canvas thick_card ∅))) < 0)%Q.
Proof. vm_compute. repeat split; reflexivity. Qed.

(** ** The genre card on concrete inputs *)



(** The source of the example genre card is in the singleton file system. *)
Lemma horror_source_present :
  GenreMaker.source horror ∈ fs (fresh {[ "posters/horror.jpg" ]}).
Proof. exact (elem_of_singleton_2 (C := gset string) _ _ eq_refl). Qed.



(** ** What the render step raises on concrete inputs *)

(** A title that ends in a backslash: escape_chars leaves the backslash,
    the closing quote of the annotate instruction is taken as escaped,
    shlex.split finds no closing quotation and [create] raises ValueError
    before any invocation. *)
Example backslash_title_raises :
  fst (build narrow_canvas backslash_card ∅) = Raised ValueError
  /\ length (measurements (log (snd (snd (build narrow_canvas backslash_card ∅))))) = 1%nat
  /\ invocations (log (snd (snd (build narrow_canvas backslash_card ∅)))) = [].
Proof. vm_compute. repeat split; reflexivity. Qed.

(** A genre with a double quote in it: the genre is not escaped, the third
    command cannot be split, and [create] raises ValueError after two
    invocations, leaving the intermediate images where they are. *)
Example quoted_genre_raises :
  fst (GenreMaker.create (os := quiet_os) (maker := genre_maker) scifi
         (fresh {[ "posters/scifi.jpg" ]})) = Raised ValueError
  /\ log (snd (GenreMaker.create (os := quiet_os) (maker := genre_maker) scifi
                 (fresh {[ "posters/scifi.jpg" ]})))
     = [ EvPopen [ "convert"; "posters/scifi.jpg"; "-resize"; "946x1446^";
                   "-gravity"; "center"; "-extent"; "946x1446";
                   "/modules/.objects/resized.png" ];
         EvPopen [ "convert"; "/modules/.objects/resized.png";
                   "/modules/ref/genre_gradient.png"; "-gravity"; "south";
                   "-composite"; "/modules/.objects/swg.png" ] ].
Proof. vm_compute. split; reflexivity. Qed.

(** On a machine without the render engine Popen raises, and so does
    [run]. *)
Example missing_engine_raises :
  fst (ImageMagickInterface.run (os := bare_os) (ImageMagickInterface.init None false)
         "convert -version" (fresh ∅)) = Raised OSError
  /\ fst (MarvelTitleCard.create (fmt := exact_format) (os := bare_os)
            (base := narrow_canvas) (narrow_card, fresh ∅)) = Raised OSError.
Proof. vm_compute. split; reflexivity. Qed.

(** ** The layout and the command on concrete cards *)

(** C4, counterexample: on the default card the title is annotated at 820
    and both index texts at 810. *)
Lemma vertical_offsets_differ :
  MarvelTitleCard.y_position wide_card <> MarvelTitleCard.title_vertical_shift wide_card
  /\ MarvelTitleCard.title_vertical_shift wide_card = 820
  /\ MarvelTitleCard.y_position wide_card = 810
  /\ last (MarvelTitleCard.title_text_commands (fmt := exact_format) wide_card)
     = Some ("-annotate +0+820 " +:+ dq +:+ "A VERY LONG TITLE" +:+ dq)
  /\ MarvelTitleCard.season_text_command (fmt := exact_format) (base := wide_canvas)
       wide_card (dims 3000 100)
     = [ "-gravity west"; "-annotate +55+810 " +:+ dq +:+ "SEASON 1" +:+ dq ]
  /\ MarvelTitleCard.episode_text_command (fmt := exact_format) (base := wide_canvas)
       wide_card (dims 3000 100)
     = [ "-gravity east"; "-annotate +55+810 " +:+ dq +:+ "EPISODE 2" +:+ dq ].
Proof. split; [discriminate|]. vm_compute. repeat split; reflexivity. Qed.

(** The example of the specification: season text hidden, compact mode, a
    title 1000 wide on the 3200 canvas puts the episode text at 2120. *)
Lemma compact_index_text_witness :
  ((inject_Z (3200 + 1000) / 2 + 20 == 2120)%Q)
  /\ MarvelTitleCard.index_text_commands (fmt := exact_format) (os := quiet_os)
       (base := narrow_canvas) compact_card (dims 1000 100)
     = [ "-font " +:+ dq +:+ "/ref/marvel/Qualion ExtraBold.ttf" +:+ dq;
         "-fill " +:+ dq +:+ "#C9C9C9" +:+ dq;
         "-pointsize 70.0";
         "-kerning 1";
         "-interword-spacing 15";
         "-gravity west";
         "-annotate +2120.0+810 " +:+ dq +:+ "EPISODE 2" +:+ dq ]
  /\ MarvelTitleCard.index_text_commands (fmt := exact_format) (os := quiet_os)
       (base := blank_canvas) compact_card (dims 0 0)
     = [ "-font " +:+ dq +:+ "/ref/marvel/Qualion ExtraBold.ttf" +:+ dq;
         "-fill " +:+ dq +:+ "#C9C9C9" +:+ dq;
         "-pointsize 70.0";
         "-kerning 1";
         "-interword-spacing 15";
         "-gravity west";
         "-annotate +1620.0+810 " +:+ dq +:+ "EPISODE 2" +:+ dq ].
Proof.
  split; [reflexivity|]. split.
  - rewrite (compact_index_text (fmt := exact_format) (os := quiet_os)
               (base := narrow_canvas) compact_card (dims 1000 100) eq_refl).
    vm_compute. reflexivity.
  - rewrite (compact_index_text (fmt := exact_format) (os := quiet_os)
               (base := blank_canvas) compact_card (dims 0 0) eq_refl).
    vm_compute. reflexivity.
Defined.

(** The border and the text box of the default card. *)
Example default_border_and_box :
  MarvelTitleCard.border_commands (fmt := exact_format) (base := narrow_canvas)
    narrow_card
  = [ "-fill " +:+ dq +:+ "white" +:+ dq;
      "-draw " +:+ dq +:+ "rectangle 0,0,55,1800" +:+ dq;
      "-draw " +:+ dq +:+ "rectangle 0,0,3200,55" +:+ dq;
      "-draw " +:+ dq +:+ "rectangle 3145,0,3200,1800" +:+ dq ]
  /\ MarvelTitleCard.bottom_border_commands (fmt := exact_format)
       (base := narrow_canvas) narrow_card
     = [ "-fill " +:+ dq +:+ "black" +:+ dq;
         "-draw " +:+ dq +:+ "rectangle 0,1600,3200,1800" +:+ dq ].
Proof. vm_compute. split; reflexivity. Qed.

(** [escape_chars] on a text with both special characters. *)
Example escape_chars_both :
  ImageMagickInterface.escape_chars ("say " +:+ dq +:+ "hi" +:+ dq +:+ " `now`")
  = "say " +:+ backslash +:+ dq +:+ "hi" +:+ backslash +:+ dq +:+ " "
      +:+ backslash +:+ "`now" +:+ backslash +:+ "`".
Proof. reflexivity. Qed.

(** The one invocation of the default card, argument by argument: the
    groups arrive in the order of the command. *)
Lemma command_order_witness :
  invocations (log (snd (snd (build narrow_canvas narrow_card ∅))))
  = [ [ "convert"; "source.jpg";
        "-resize"; "3200x1800^";
        "-resize"; "3090x";
        "-extent"; "3200x1800";
        "-fill"; "white"; "-draw"; "rectangle 0,0,55,1800";
        "-draw"; "rectangle 0,0,3200,55"; "-draw"; "rectangle 3145,0,3200,1800";
        "-fill"; "black"; "-draw"; "rectangle 0,1600,3200,1800";
        "-font"; "/ref/marvel/Qualion ExtraBold.ttf"; "-fill"; "white";
        "-pointsize"; "150.0"; "-kerning"; "1.0"; "-interline-spacing"; "0";
        "-interword-spacing"; "0"; "-gravity"; "center";
        "-annotate"; "+0+820"; "TITLE";
        "-font"; "/ref/marvel/Qualion ExtraBold.ttf"; "-fill"; "#C9C9C9";
        "-pointsize"; "70.0"; "-kerning"; "1"; "-interword-spacing"; "15";
        "-gravity"; "west"; "-annotate"; "+55+810"; "SEASON 1";
        "-gravity"; "east"; "-annotate"; "+55+810"; "EPISODE 2";
        "-resize"; "3200x1800";
        "card.jpg" ] ].
Proof.
  destruct (command_order (fmt := exact_format) (os := quiet_os) (base := narrow_canvas)
              narrow_card (fst (snd (build narrow_canvas narrow_card ∅)))
              (fresh ∅) (snd (snd (build narrow_canvas narrow_card ∅))))
    as (argv & Hinvoked & Hsplit).
  - vm_compute. reflexivity.
  - vm_compute in Hsplit. injection Hsplit as <-. exact Hinvoked.
Defined.

(** Two measurements that differ only on instructions the build never
    sends. *)
Lemma build_deterministic_witness :
  MarvelTitleCard.create (fmt := exact_format) (os := quiet_os)
    (base := with_measure narrow_canvas
               (fun text_command w h =>
                  match text_command with
                  | [] => dims 7 7
                  | _ => measure_text (BaseCardType := narrow_canvas) text_command w h
                  end))
    (narrow_card, fresh ∅)
  = build narrow_canvas narrow_card ∅.
Proof.
  apply (build_deterministic (fmt := exact_format) (os := quiet_os)
           (base := narrow_canvas)
           (measure_text (BaseCardType := narrow_canvas))).
  intros text_command w h Hin.
  vm_compute in Hin.
  repeat (apply elem_of_cons in Hin as [Heq|Hin];
          [injection Heq as -> _ _; reflexivity|]).
  apply elem_of_nil in Hin. contradiction.
Defined.

(** * Further properties of the embedded code *)

(** ** Escaping *)

Section Escaping.

Lemma string_app_cons (ch : ascii) (a b : string) :
  String ch a +:+ b = String ch (a +:+ b).
Proof. reflexivity. Qed.

Lemma string_app_nil (b : string) : EmptyString +:+ b = b.
Proof. reflexivity. Qed.

Lemma string_app_assoc (a b c : string) : (a +:+ b) +:+ c = a +:+ (b +:+ c).
Proof.
  induction a as [|ch a IH]; [reflexivity|].
  rewrite !string_app_cons. now f_equal.
Qed.

Lemma replace_char_app (old : ascii) (new a b : string) :
  replace_char old new (a +:+ b)
  = replace_char old new a +:+ replace_char old new b.
Proof.
  induction a as [|ch a IH]; [reflexivity|].
  rewrite string_app_cons. cbn [replace_char]. rewrite IH.
  destruct (Ascii.eqb ch old);
    [now rewrite string_app_assoc | now rewrite string_app_cons].
Qed.

(** What [escape_chars] does to the first character. *)
Lemma escape_chars_cons (ch : ascii) (s : string) :
  ImageMagickInterface.escape_chars (String ch s) =
    if Ascii.eqb ch "034"%char || Ascii.eqb ch backtick
    then String "092"%char (String ch (ImageMagickInterface.escape_chars s))
    else String ch (ImageMagickInterface.escape_chars s).
Proof.
  unfold ImageMagickInterface.escape_chars. cbn [replace_char].
  destruct (Ascii.eqb_spec ch "034"%char) as [->|Hq].
  - reflexivity.
  - cbn [orb replace_char].
    destruct (Ascii.eqb_spec ch backtick) as [->|Hb]; reflexivity.
Qed.

Lemma escape_chars_nil : ImageMagickInterface.escape_chars EmptyString = EmptyString.
Proof. reflexivity. Qed.

(** X1: in an escaped text every double quote and every backtick stands
    right after a backslash. *)
Theorem escape_chars_guarded (s pre post : string) (ch : ascii) :
  ImageMagickInterface.escape_chars s = pre +:+ String ch post ->
  ch = "034"%char \/ ch = backtick ->
  exists before, pre = before +:+ backslash.
Proof.
  revert pre. induction s as [|c0 s IH]; intros pre Heq Hspecial.
  - rewrite escape_chars_nil in Heq. destruct pre; discriminate.
  - rewrite escape_chars_cons in Heq.
    destruct (Ascii.eqb c0 "034"%char || Ascii.eqb c0 backtick) eqn:Hc0.
    + destruct pre as [|p pre].
      * rewrite string_app_nil in Heq. injection Heq as Hch _. subst ch.
        destruct Hspecial; discriminate.
      * rewrite string_app_cons in Heq. injection Heq as Hp Hrest. subst p.
        destruct pre as [|p pre].
        -- exists EmptyString. reflexivity.
        -- rewrite string_app_cons in Hrest. injection Hrest as _ Hrest.
           destruct (IH pre Hrest Hspecial) as [before ->].
           exists (String "092"%char (String p before)). reflexivity.
    + destruct pre as [|p pre].
      * rewrite string_app_nil in Heq. injection Heq as Hch _. subst c0.
        destruct Hspecial; subst ch; discriminate.
      * rewrite string_app_cons in Heq. injection Heq as _ Hrest.
        destruct (IH pre Hrest Hspecial) as [before ->].
        exists (String p before). reflexivity.
Qed.

(** X2: escaping distributes over concatenation: the pieces of a text can
    be escaped one by one. *)
Theorem escape_chars_app (a b : string) :
  ImageMagickInterface.escape_chars (a +:+ b)
  = ImageMagickInterface.escape_chars a +:+ ImageMagickInterface.escape_chars b.
Proof.
  unfold ImageMagickInterface.escape_chars. now rewrite !replace_char_app.
Qed.

(** X3: escaping leaves a text as it is exactly when the text holds neither
    a double quote nor a backtick. *)
Theorem escape_chars_unchanged (s : string) :
  ImageMagickInterface.escape_chars s = s
  <-> (forall ch, In ch (list_ascii_of_string s) ->
                  ch <> "034"%char /\ ch <> backtick).
Proof.
  induction s as [|c0 s IH].
  - split; [intros _ ch []| reflexivity].
  - rewrite escape_chars_cons. cbn [list_ascii_of_string In].
    destruct (Ascii.eqb_spec c0 "034"%char) as [Hq|Hq];
      [|destruct (Ascii.eqb_spec c0 backtick) as [Hb|Hb]]; cbn [orb].
    + split.
      * intros Heq. injection Heq as Hc _. subst c0. discriminate.
      * intros Hall. destruct (Hall c0 (or_introl eq_refl)) as [Hne _].
        contradiction.
    + split.
      * intros Heq. injection Heq as Hc _. subst c0. discriminate.
      * intros Hall. destruct (Hall c0 (or_introl eq_refl)) as [_ Hne].
        contradiction.
    + split.
      * intros Heq. injection Heq as Hrest.
        intros ch [<-|Hin]; [split; assumption|].
        now apply IH.
      * intros Hall. f_equal. apply IH. intros ch Hin. apply Hall. now right.
Qed.

End Escaping.

(** A quoted word: its two quotes end up behind backslashes. *)
Lemma escape_chars_guarded_witness :
  exists before,
    "say " +:+ backslash = before +:+ backslash.
Proof.
  apply (escape_chars_guarded ("say " +:+ dq +:+ "hi" +:+ dq)
           ("say " +:+ backslash) ("hi" +:+ backslash +:+ dq) "034"%char).
  - reflexivity.
  - left. reflexivity.
Defined.

(** ** The ImageMagick interface *)

Section Interface.

(** X4: an interface constructed without a container, or with the empty
    name, sends the command to the host behind the optional magick prefix;
    constructed with a container name it wraps the same command in
    docker exec for that container. *)
Theorem command_line_of_init (container : option string)
    (use_magick_prefix : bool) (command : string) :
  let magick := if use_magick_prefix then "magick " else EmptyString in
  ImageMagickInterface.command_line
    (ImageMagickInterface.init container use_magick_prefix) command =
    match container with
    | None => magick +:+ command
    | Some name =>
        if String.eqb name EmptyString then magick +:+ command
        else "docker exec -t " +:+ name +:+ " " +:+ magick +:+ command
    end.
Proof.
  unfold ImageMagickInterface.command_line, ImageMagickInterface.init.
  cbn [ImageMagickInterface.use_docker ImageMagickInterface.truthy
       ImageMagickInterface.prefix ImageMagickInterface.container
       ImageMagickInterface.str_container].
  destruct container as [name|]; [|reflexivity].
  cbn [ImageMagickInterface.truthy ImageMagickInterface.str_container].
  destruct (String.eqb name EmptyString); reflexivity.
Qed.

(** The files and the log after [delete_intermediate_images]. *)
Lemma delete_intermediate_images_run (paths : list string) (w : world) :
  ImageMagickInterface.delete_intermediate_images paths w =
    (Returned tt,
     {| fs := fs w ∖ list_to_set paths; log := log w ++ map EvUnlink paths |}).
Proof.
  revert w. induction paths as [|image rest IH]; intros w.
  - cbn. unfold ret. destruct w as [files events]. cbn.
    rewrite app_nil_r. f_equal. f_equal. apply set_eq. intros path.
    rewrite elem_of_difference. split; [|tauto].
    intros Hin. split; [exact Hin|]. apply not_elem_of_empty.
  - cbn [ImageMagickInterface.delete_intermediate_images].
    unfold bind, ImageMagickInterface.unlink. rewrite IH. cbn [fs log map list_to_set].
    rewrite <- app_assoc. f_equal. f_equal. apply set_eq. intros path.
    rewrite !elem_of_difference, elem_of_union, elem_of_singleton. tauto.
Qed.


(** X6: deleting the same images a second time changes no file. *)
Theorem delete_intermediate_images_idempotent (paths : list string) (w : world) :
  fs (snd (ImageMagickInterface.delete_intermediate_images paths
             (snd (ImageMagickInterface.delete_intermediate_images paths w))))
  = fs (snd (ImageMagickInterface.delete_intermediate_images paths w)).
Proof.
  rewrite !delete_intermediate_images_run. cbn [snd fs].
  apply set_eq. intros path. rewrite !elem_of_difference. tauto.
Qed.

End Interface.

(** ** The build of a Marvel card *)

Section BuildProperties.
Context {fmt : PyFloatFormat} {os : OperatingSystem} {base : BaseCardType}.
Import MarvelTitleCard.

(** When [submit] raises, the world is as it was. *)
Lemma submit_raised (self : t) (dims : Dimensions) (w : world) (e : exn) :
  fst (submit self dims w) = Raised e ->
  (e = ValueError \/ e = OSError) /\ snd (snd (submit self dims w)) = w.
Proof.
  destruct (submit_cases self dims w)
    as [(argv & finished & files & _ & _ & ->)|(e' & He & ->)]; cbn [fst snd].
  - discriminate.
  - intros [= <-]. auto.
Qed.

(** [create] ends in one of four ways: the division of the text-fit step
    raised after two measurements, or the command was submitted for the
    card as it was or as the text-fit step left it, after the measurements
    and the assignment of that branch. *)
Lemma create_cases (self : t) (w : world) :
  (exists e,
     (e = ZeroDivisionError \/ e = OverflowError)
     /\ fit_text self = true
     /\ max_width self < measured_text_width self
     /\ truediv (max_width self) (measured_text_width self) = Raised e
     /\ create (self, w) =
          (Raised e,
           (self,
            {| fs := fs w;
               log := log w
                 ++ [ EvMeasure (title_text_commands self) DimMax DimSum;
                      EvMeasure (index_text_commands self (first_title_dims self))
                        DimSum DimSum ] |})))
  \/ (exists card events,
        invocations events = []
        /\ errors events = []
        /\ set_font_size_modifier (font_size_modifier self) card = self
        /\ create (self, w) =
             submit card (first_title_dims card)
               {| fs := fs w; log := log w ++ events |}).
Proof.
  destruct (fit_text self) eqn:Hfit.
  - destruct (Z.lt_ge_cases (max_width self) (measured_text_width self)) as [Hlt|Hge].
    + destruct (truediv (max_width self) (measured_text_width self)) as [q|e] eqn:Hdiv.
      * right. eexists. eexists.
        split; [|split; [|split; [|exact (create_shrinking self w q Hfit Hlt Hdiv)]]];
          [reflexivity | reflexivity | now destruct self].
      * left. exists e. split.
        { unfold truediv in Hdiv.
          destruct (measured_text_width self =? 0); [left; congruence|].
          destruct (round_binary64 _); [discriminate | right; congruence]. }
        repeat split; auto. exact (create_raising self w e Hfit Hlt Hdiv).
    + right. eexists. eexists.
      split; [|split; [|split; [|exact (create_fitting self w Hfit Hge)]]];
        [reflexivity | reflexivity | now destruct self].
  - right. eexists. eexists.
    split; [|split; [|split; [|exact (create_unfitted self w Hfit)]]];
      [reflexivity | reflexivity | now destruct self].
Qed.

(** X7: a build changes no attribute of the card other than
    font_size_modifier, and it only ever appends to the log. *)
Theorem create_changes_only_the_modifier (self : t) (w : world) (q : Q) :
  let final := create (self, w) in
  set_font_size_modifier q (fst (snd final)) = set_font_size_modifier q self
  /\ exists added, log (snd (snd final)) = log w ++ added.
Proof.
  intros final. subst final.
  destruct (create_cases self w)
    as [(e & _ & _ & _ & _ & ->)|(card & events & _ & _ & Hcard & ->)].
  - cbn [fst snd log]. eauto.
  - destruct (submit_frame card (first_title_dims card)
                {| fs := fs w; log := log w ++ events |})
      as (-> & _ & _ & _ & _ & added & ->).
    cbn [log]. split.
    + rewrite <- Hcard. reflexivity.
    + exists (events ++ added). now rewrite app_assoc.
Qed.

(** X8: a build raises ZeroDivisionError exactly when text fitting is on,
    the measured text width is zero and the interior width is negative; an
    exception of the division leaves the card as it was; and whatever a
    build raises, it leaves the files and the list of render-engine
    invocations as they were. *)
Theorem create_raises_exactly (self : t) (w : world) :
  let final := create (self, w) in
  (fst final = Raised ZeroDivisionError
   <-> fit_text self = true /\ measured_text_width self = 0 /\ max_width self < 0)
  /\ (fst final = Raised ZeroDivisionError \/ fst final = Raised OverflowError ->
      fst (snd final) = self)
  /\ (forall e, fst final = Raised e ->
      fs (snd (snd final)) = fs w
      /\ invocations (log (snd (snd final))) = invocations (log w)).
Proof.
  intros final. subst final.
  destruct (create_cases self w)
    as [(e & He & Hfit & Hlt & Hdiv & Hrun)|(card & events & Hnone & _ & Hcard & Hrun)];
    rewrite Hrun.
  - cbn [fst snd fs log]. split; [|split].
    + split.
      * intros [= ->]. apply truediv_zero_division in Hdiv. repeat split; [auto|auto|lia].
      * intros (_ & Hzero & _).
        assert (Hz : truediv (max_width self) (measured_text_width self)
                     = Raised ZeroDivisionError)
          by now apply truediv_zero_division.
        congruence.
    + reflexivity.
    + intros _ _. rewrite invocations_app. cbn. now rewrite app_nil_r.
  - pose proof (submit_raised card (first_title_dims card)
                  {| fs := fs w; log := log w ++ events |}) as Hraised.
    split; [|split].
    + split.
      * intros Hz. destruct (Hraised _ Hz) as [[?|?] _]; discriminate.
      * intros (Hfit & Hzero & Hneg). exfalso.
        assert (Hz : truediv (max_width self) (measured_text_width self)
                     = Raised ZeroDivisionError)
          by now apply truediv_zero_division.
        assert (Hlt : max_width self < measured_text_width self) by lia.
        rewrite (create_raising self w _ Hfit Hlt Hz) in Hrun.
        destruct (submit_cases card (first_title_dims card)
                    {| fs := fs w; log := log w ++ events |})
          as [(argv & finished & files & _ & _ & Heq)|(e & [?|?] & Heq)];
          rewrite Heq in Hrun; subst; discriminate.
    + intros [Hz|Ho]; [destruct (Hraised _ Hz) as [[?|?] _]
                      | destruct (Hraised _ Ho) as [[?|?] _]]; discriminate.
    + intros e He. destruct (Hraised e He) as [_ ->]. cbn [fs log].
      rewrite invocations_app, Hnone, app_nil_r. auto.
Qed.


(** X10: in every positioning mode other than compact the index text does
    not depend on the title dimensions: the season text is anchored west
    and the episode text east, both at the border size. *)
Theorem fixed_index_text (self : t) (d1 d2 : Dimensions) :
  episode_text_position self <> "compact" ->
  let annotate text :=
    "-annotate +" +:+ str_int (border_size self)
      +:+ plus_int (810 + font_vertical_shift self)
      +:+ " " +:+ dq +:+ text +:+ dq in
  index_text_commands self d1 = index_text_commands self d2
  /\ season_text_command self d1 =
       (if hide_season_text self then []
        else ["-gravity west"; annotate (season_text self)])
  /\ episode_text_command self d1 =
       (if hide_episode_text self then []
        else ["-gravity east"; annotate (episode_text self)]).
Proof.
  intros Hmode annotate. subst annotate.
  apply String.eqb_neq in Hmode.
  unfold index_text_commands, season_text_command, episode_text_command.
  rewrite Hmode.
  destruct (hide_season_text self), (hide_episode_text self);
    repeat split; reflexivity.
Qed.

(** X11: the title group is empty exactly when the title text is empty, and
    the index group is empty exactly when both index texts are hidden. *)
Theorem text_groups_empty (self : t) (title_text_dimensions : Dimensions) :
  (title_text_commands self = [] <-> title_text self = EmptyString)
  /\ (index_text_commands self title_text_dimensions = []
      <-> hide_season_text self = true /\ hide_episode_text self = true).
Proof.
  split.
  - unfold title_text_commands.
    destruct (title_text self) as [|ch rest]; cbn; split; congruence.
  - unfold index_text_commands.
    destruct (hide_season_text self), (hide_episode_text self); cbn;
      split; try tauto; try discriminate; intros [? ?]; discriminate.
Qed.

(** X12: is_custom_font answers False exactly for the font with the default
    colour and file, no extra spacing, kerning and size 1.0 and no vertical
    shift; in particular the default font arguments of the constructor are
    not a custom font. *)
Theorem is_custom_font_false_iff (font : Font.t) :
  (is_custom_font font = false
   <-> Font.color font = TITLE_COLOR
       /\ Font.file font = TITLE_FONT
       /\ Font.interline_spacing font = 0
       /\ Font.interword_spacing font = 0
       /\ (Font.kerning font == 1)%Q
       /\ (Font.size font == 1)%Q
       /\ Font.vertical_shift font = 0)
  /\ is_custom_font (font_of_kwargs defaults) = false.
Proof.
  split.
  - unfold is_custom_font.
    rewrite !orb_false_iff, !negb_false_iff, !String.eqb_eq, !Z.eqb_eq,
      !Qeq_bool_iff.
    tauto.
  - unfold is_custom_font, font_of_kwargs, defaults.
    cbn [Font.color Font.file Font.interline_spacing Font.interword_spacing
         Font.kerning Font.size Font.vertical_shift kw_font_color kw_font_file
         kw_font_interline_spacing kw_font_interword_spacing kw_font_kerning
         kw_font_size kw_font_vertical_shift].
    rewrite !String.eqb_refl. reflexivity.
Qed.

(** X18: assigning the modifier changes nothing in the instruction groups
    but the pointsize instruction, third in the title group and third in the
    index group; the border and the text box are drawn as before. *)
Theorem modifier_changes_only_pointsize (self : t) (q : Q)
    (title_text_dimensions : Dimensions) :
  let resized := set_font_size_modifier q self in
  title_text_commands resized
    = <[2%nat := "-pointsize " +:+ float_str (150 * font_size self * q)%Q]>
        (title_text_commands self)
  /\ index_text_commands resized title_text_dimensions
     = <[2%nat := "-pointsize " +:+ float_str (70 * q)%Q]>
         (index_text_commands self title_text_dimensions)
  /\ border_commands resized = border_commands self
  /\ bottom_border_commands resized = bottom_border_commands self.
Proof.
  intros resized. subst resized. split; [|split; [|split]].
  - unfold title_text_commands. cbn [title_text set_font_size_modifier].
    destruct (String.length (title_text self) =? 0)%nat; reflexivity.
  - unfold index_text_commands.
    cbn [hide_season_text hide_episode_text set_font_size_modifier].
    destruct (hide_season_text self && hide_episode_text self); reflexivity.
  - reflexivity.
  - reflexivity.
Qed.

End BuildProperties.


(** The fixed mode of the same card, with two different title widths. *)
Lemma fixed_index_text_witness :
  MarvelTitleCard.index_text_commands (fmt := exact_format) (os := quiet_os)
    (base := narrow_canvas) season_only_card (dims 0 0)
  = MarvelTitleCard.index_text_commands (fmt := exact_format) (os := quiet_os)
      (base := narrow_canvas) season_only_card (dims 3000 100).
Proof.
  apply (fixed_index_text (fmt := exact_format) (os := quiet_os)
           (base := narrow_canvas) season_only_card (dims 0 0) (dims 3000 100)).
  discriminate.
Defined.

(** ** The genre card pipeline *)

Section GenrePipeline.
Context {os : OperatingSystem} {maker : ImageMaker}.
Import GenreMaker.


(** X13: when create returns with the source in place, the genre card was
    made by three invocations in a fixed order, each reading what the one
    before wrote: the source is resized into the first intermediate image,
    the gradient is composed over it into the second, and text and border
    are added to that into the output; then the two intermediate images
    were unlinked. Each invocation carries what shlex.split makes of its
    command line. *)
Theorem genre_pipeline_order (self : t) (w : world) :
  source self ∈ fs w ->
  fst (create self w) = Returned tt ->
  let submitted command :=
    command_split (ImageMagickInterface.command_line maker_image_magick command) in
  exists resize gradient text,
    submitted (String.concat " "
      [ "convert " +:+ dq +:+ resolve (source self) +:+ dq;
        "-resize 946x1446^";
        "-gravity center";
        "-extent 946x1446";
        dq +:+ resolve RESIZED_SOURCE +:+ dq ]) = Some resize
    /\ submitted (String.concat " "
         [ "convert " +:+ dq +:+ resolve RESIZED_SOURCE +:+ dq;
           dq +:+ resolve GENRE_GRADIENT +:+ dq;
           "-gravity south";
           "-composite";
           dq +:+ resolve SOURCE_WITH_GRADIENT +:+ dq ]) = Some gradient
    /\ submitted (String.concat " "
         [ "convert " +:+ dq +:+ resolve SOURCE_WITH_GRADIENT +:+ dq;
           "-gravity south";
           "-font " +:+ dq +:+ resolve FONT +:+ dq;
           "-bordercolor white";
           "-border 27x27";
           "-fill white";
           "-pointsize 159";
           "-kerning 2.25";
           "-annotate +0+100 " +:+ dq +:+ genre self +:+ dq;
           dq +:+ resolve (output self) +:+ dq ]) = Some text
    /\ log (snd (create self w)) = log w ++
         [ EvPopen resize; EvPopen gradient; EvPopen text;
           EvUnlink RESIZED_SOURCE; EvUnlink SOURCE_WITH_GRADIENT ].
Proof.
  intros Hpresent Hreturned submitted. subst submitted.
  destruct (genre_create_run self w Hpresent)
    as [(a1 & a2 & a3 & r1 & r2 & r3 & f1 & f2 & f3
         & Hs1 & Hs2 & Hs3 & _ & _ & _ & Hrun)
       |(e & ran & files & _ & _ & Hrun)];
    rewrite Hrun in *; [|discriminate].
  exists a1, a2, a3. cbn [snd log]. auto.
Qed.



End GenrePipeline.

(** The horror card with its poster on disk. *)
Lemma genre_pipeline_order_witness :
  log (snd (GenreMaker.create (os := quiet_os) (maker := genre_maker) horror
              (fresh {[ "posters/horror.jpg" ]})))
  = [ EvPopen [ "convert"; "posters/horror.jpg"; "-resize"; "946x1446^";
                "-gravity"; "center"; "-extent"; "946x1446";
                "/modules/.objects/resized.png" ];
      EvPopen [ "convert"; "/modules/.objects/resized.png";
                "/modules/ref/genre_gradient.png"; "-gravity"; "south";
                "-composite"; "/modules/.objects/swg.png" ];
      EvPopen [ "convert"; "/modules/.objects/swg.png"; "-gravity"; "south";
                "-font"; "/modules/ref/MyriadRegular.ttf";
                "-bordercolor"; "white"; "-border"; "27x27"; "-fill"; "white";
                "-pointsize"; "159"; "-kerning"; "2.25";
                "-annotate"; "+0+100"; "HORROR"; "genres/horror.jpg" ];
      EvUnlink "/modules/.objects/resized.png";
      EvUnlink "/modules/.objects/swg.png" ].
Proof.
  destruct (genre_pipeline_order (os := quiet_os) (maker := genre_maker) horror
              (fresh {[ "posters/horror.jpg" ]}) horror_source_present)
    as (resize & gradient & text & Hresize & Hgradient & Htext & Hlog).
  - vm_compute. reflexivity.
  - vm_compute in Hresize, Hgradient, Htext.
    injection Hresize as <-. injection Hgradient as <-. injection Htext as <-.
    exact Hlog.
Defined.


(** ** More on the extras dictionary *)

Section ExtrasValues.
Import MarvelTitleCard.

(** A conditional overwrite leaves under its key the new value or
    nothing. *)
Lemma overwrite_present_self (extras : gmap string pyvalue) (key : string)
    (value found : pyvalue) :
  (if bool_decide (is_Some (extras !! key)) then <[key := value]> extras else extras)
    !! key = Some found ->
  found = value.
Proof.
  case_bool_decide as Hpresent.
  - rewrite lookup_insert_eq. congruence.
  - intros Hfound. contradiction Hpresent. eauto.
Qed.

(** A conditional overwrite with the value already there does nothing. *)
Lemma overwrite_present_fixed (extras : gmap string pyvalue) (key : string)
    (value : pyvalue) :
  (forall found, extras !! key = Some found -> found = value) ->
  (if bool_decide (is_Some (extras !! key)) then <[key := value]> extras else extras)
  = extras.
Proof.
  intros Hsame. case_bool_decide as Hpresent; [|reflexivity].
  destruct Hpresent as [found Hfound].
  apply insert_id. rewrite Hfound. f_equal. now apply Hsame.
Qed.

(** X16: without a custom font, an episode_text_color entry that is present
    becomes the default episode text colour and a border_color entry that
    is present becomes white, whatever they held. *)
Theorem modify_extras_resets (extras : gmap string pyvalue)
    (custom_season_titles : bool) :
  let result := modify_extras extras false custom_season_titles in
  (is_Some (extras !! "episode_text_color") ->
   result !! "episode_text_color" = Some (PyStr "#C9C9C9"))
  /\ (is_Some (extras !! "border_color") ->
      result !! "border_color" = Some (PyStr "white")).
Proof.
  intros result. subst result. unfold modify_extras. cbn [negb]. split.
  - intros Hpresent.
    rewrite overwrite_present_lookup by discriminate.
    rewrite bool_decide_eq_true_2 by exact Hpresent.
    apply lookup_insert_eq.
  - intros Hpresent.
    rewrite bool_decide_eq_true_2.
    + apply lookup_insert_eq.
    + rewrite overwrite_present_lookup by discriminate. exact Hpresent.
Qed.

(** X17: modify_extras is idempotent: applying it again, with the same
    custom_font flag, changes nothing more. *)
Theorem modify_extras_idempotent (extras : gmap string pyvalue)
    (custom_font first second : bool) :
  modify_extras (modify_extras extras custom_font first) custom_font second
  = modify_extras extras custom_font first.
Proof.
  destruct custom_font; [reflexivity|].
  unfold modify_extras. cbn [negb].
  set (coloured :=
         if bool_decide (is_Some (extras !! "episode_text_color"))
         then <["episode_text_color" := PyStr EPISODE_TEXT_COLOR]> extras
         else extras).
  set (bordered :=
         if bool_decide (is_Some (coloured !! "border_color"))
         then <["border_color" := PyStr "white"]> coloured
         else coloured).
  assert (Hcolour :
            (if bool_decide (is_Some (bordered !! "episode_text_color"))
             then <["episode_text_color" := PyStr EPISODE_TEXT_COLOR]> bordered
             else bordered) = bordered).
  { apply overwrite_present_fixed. intros v Hv.
    unfold bordered in Hv. rewrite overwrite_present_lookup in Hv by discriminate.
    exact (overwrite_present_self _ _ _ _ Hv). }
  rewrite Hcolour.
  apply overwrite_present_fixed. intros v Hv.
  exact (overwrite_present_self _ _ _ _ Hv).
Qed.

End ExtrasValues.

